(** * Chat text-area FIM autocomplete and the Mistral FIM transport

    A shallow embedding of
    - [ChatTextAreaAutocomplete] (getCompletion, buildPrefix,
      getClipboardContext, cleanSuggestion, isUnwantedSuggestion), and
    - [MistralHandler] (getModel, supportsFim, completeFim, streamFim),
    together with the properties of them that the specification states.

    JavaScript strings are sequences of UTF-16 code units; they are
    modelled as [list N], one element per code unit, so that [length],
    [substring], [startsWith], [indexOf] and [lastIndexOf] count what the
    engine counts.  Indices are [Z] because [indexOf] answers [-1].
    Calls of [console.log] are left out: they change nothing that the
    methods return or send. *)

From Stdlib Require Import ZArith NArith QArith Strings.String Strings.Ascii
  Numbers.DecimalString.
From stdpp Require Import base tactics option list gmap.

Local Open Scope Z_scope.

(** ** JavaScript strings *)

Module JS.

Abbreviation jsstring := (list N).

(** A string literal of the source (ASCII only). *)
Definition lit (s : string) : jsstring :=
  N_of_ascii <$> list_ascii_of_string s.

Definition LF : N := 10%N.
Definition SPACE : N := 32%N.

Definition length (s : jsstring) : Z := Z.of_nat (List.length s).

(** WhiteSpace and LineTerminator of ECMAScript: what [trim], [trimStart]
    and the regular-expression class [\s] remove or match. *)
Definition isWhiteSpace (c : N) : bool :=
  ((9 <=? c) && (c <=? 13) || (c =? 32) || (c =? 160) || (c =? 5760)
   || (8192 <=? c) && (c <=? 8202) || (c =? 8232) || (c =? 8233)
   || (c =? 8239) || (c =? 8287) || (c =? 12288) || (c =? 65279))%N.

Fixpoint trimStart (s : jsstring) : jsstring :=
  match s with
  | c :: s' => if isWhiteSpace c then trimStart s' else s
  | [] => []
  end.

Definition trimEnd (s : jsstring) : jsstring :=
  reverse (trimStart (reverse s)).

Definition trim (s : jsstring) : jsstring := trimEnd (trimStart s).

(** [s.startsWith(p)], compared code unit by code unit. *)
Fixpoint startsWith (s p : jsstring) {struct p} : bool :=
  match p, s with
  | [], _ => true
  | c :: p', d :: s' => (c =? d)%N && startsWith s' p'
  | _ :: _, [] => false
  end.

Definition clamp (len i : Z) : Z := Z.min (Z.max i 0) len.

(** [s.substring(start, end)]: both ends are clamped to [0, length] and
    swapped when out of order; a missing [end] is the length. *)
Definition substring (s : jsstring) (start : Z) (end_ : option Z) : jsstring :=
  let len := length s in
  let a := clamp len start in
  let b := match end_ with Some e => clamp len e | None => len end in
  take (Z.to_nat (Z.max a b - Z.min a b)) (drop (Z.to_nat (Z.min a b)) s).

(** [s.indexOf(needle)]: the first index at which [needle] occurs, or -1. *)
Fixpoint indexOf_from (s needle : jsstring) (k : Z) : Z :=
  if startsWith s needle then k
  else match s with
       | [] => -1
       | _ :: s' => indexOf_from s' needle (k + 1)
       end.

Definition indexOf (s needle : jsstring) : Z := indexOf_from s needle 0.

(** [s.lastIndexOf(needle, pos)]: the greatest index [k <= start] at which
    [needle] occurs, where [start] is [pos] clamped to
    [0 .. length s - length needle]; -1 when there is none. *)
Fixpoint lastIndexOf_scan (s needle : jsstring) (k start best : Z) : Z :=
  let best' := if (k <=? start) && startsWith s needle then k else best in
  match s with
  | [] => best'
  | _ :: s' => lastIndexOf_scan s' needle (k + 1) start best'
  end.

Definition lastIndexOf (s needle : jsstring) (pos : Z) : Z :=
  let start := Z.min (Z.max pos 0) (length s - length needle) in
  lastIndexOf_scan s needle 0 start (-1).

(** [parts.join(sep)]. *)
Fixpoint join (sep : jsstring) (parts : list jsstring) : jsstring :=
  match parts with
  | [] => []
  | [p] => p
  | p :: rest => p ++ sep ++ join sep rest
  end.

(** [s.split(sep)] for a separator of one code unit; never empty. *)
Fixpoint split (sep : N) (s : jsstring) : list jsstring :=
  match s with
  | [] => [[]]
  | c :: s' =>
      if (c =? sep)%N then [] :: split sep s'
      else match split sep s' with
           | p :: ps => (c :: p) :: ps
           | [] => [[c]]
           end
  end.

(** Truthiness of a string: the empty string is falsy. *)
Definition truthy (s : jsstring) : bool :=
  match s with [] => false | _ :: _ => true end.

(** [a || b] on strings. *)
Definition or_else (a b : jsstring) : jsstring := if truthy a then a else b.

(** [String(n)] for an integer. *)
Definition Number_toString (n : Z) : jsstring :=
  lit (NilZero.string_of_int (Z.to_int n)).

(** *** Code points, as a regular expression with the [u] flag reads them *)

Definition isHighSurrogate (c : N) : bool := ((55296 <=? c) && (c <=? 56319))%N.
Definition isLowSurrogate (c : N) : bool := ((56320 <=? c) && (c <=? 57343))%N.

Definition surrogatePair (hi lo : N) : N :=
  (65536 + (hi - 55296) * 1024 + (lo - 56320))%N.

(** A high surrogate followed by a low one is one code point; any other
    code unit, a lone surrogate included, is a code point of its own. *)
Fixpoint codePoints (s : jsstring) : list N :=
  match s with
  | [] => []
  | c :: t =>
      match t with
      | d :: t' =>
          if isHighSurrogate c && isLowSurrogate d
          then surrogatePair c d :: codePoints t'
          else c :: codePoints t
      | [] => [c]
      end
  end.

End JS.
Import JS.

(** ** Exceptions, promises and generators *)

(** A thrown value: an [Error] with its message. *)
Record exn := Error { message : jsstring }.

(** How a call (or an awaited promise) ends. *)
Inductive outcome (A : Type) : Type :=
  | Return (a : A)
  | Throw (e : exn).
Arguments Return {A} a.
Arguments Throw {A} e.

(** What the consumer of an (async) generator observes: the values it
    yields, in order, and how it ends.  Streams are finite. *)
Inductive gen (A : Type) : Type :=
  | Yield (a : A) (rest : gen A)
  | Done
  | Fail (e : exn).
Arguments Yield {A} a rest.
Arguments Done {A}.
Arguments Fail {A} e.

(** The values a generator yields before it ends. *)
Fixpoint yields {A} (g : gen A) : list A :=
  match g with
  | Yield a rest => a :: yields rest
  | Done | Fail _ => []
  end.

(** How a generator ends. *)
Fixpoint ending {A} (g : gen A) : outcome unit :=
  match g with
  | Yield _ rest => ending rest
  | Done => Return tt
  | Fail e => Throw e
  end.

(** ** ChatTextAreaAutocomplete: the pure text processing *)

Section Clean.

(** General category P (punctuation) of the Unicode character database, as
    the class [\p{P}] of a regular expression reads it.  The table belongs
    to the JavaScript engine, not to the repository: every result below
    holds for any table, and [unicodeP] further down is a concrete one. *)
Variable punct : N -> bool.

(** [/^[\s\p{P}]+$/u.test(s)]: at least one code point, and every code
    point is white space or punctuation. *)
Definition onlySpaceOrPunct (s : jsstring) : bool :=
  truthy s && forallb (fun cp => isWhiteSpace cp || punct cp) (codePoints s).

(** isUnwantedSuggestion, lines 149-168. *)
Definition isUnwantedSuggestion (suggestion : jsstring) : bool :=
  if startsWith suggestion (lit "//") || startsWith suggestion (lit "/*")
     || startsWith suggestion (lit "*")
  then true
  else if startsWith suggestion (lit "#") && negb (startsWith suggestion (lit "# "))
  then true
  else if (length suggestion <? 2) || onlySpaceOrPunct suggestion
  then true
  else false.

(** Lines 114-118: the local [cleaned] once the echo of the user text has
    been looked for. *)
Definition afterEcho (suggestion userText : jsstring) : jsstring :=
  let cleaned := trim suggestion in
  if startsWith cleaned userText
  then substring cleaned (length userText) None
  else cleaned.

(** Lines 120-125: cut at the first line feed, then trim the start. *)
Definition firstLine (cleaned : jsstring) : jsstring :=
  let firstNewline := indexOf cleaned [LF] in
  let cleaned :=
    if negb (firstNewline =? -1) then substring cleaned 0 (Some firstNewline)
    else cleaned in
  trimStart cleaned.

(** Lines 134-141: the length cap. *)
Definition capLength (cleaned : jsstring) : jsstring :=
  if length cleaned >? 100 then
    let lastSpace := lastIndexOf cleaned [SPACE] 100 in
    if lastSpace >? 50 then substring cleaned 0 (Some lastSpace)
    else substring cleaned 0 (Some 100)
  else cleaned.

(** Lines 120-143: what cleanSuggestion does with [cleaned] after the echo
    step. *)
Definition cleanRest (cleaned : jsstring) : jsstring :=
  let cleaned := firstLine cleaned in
  if isUnwantedSuggestion cleaned then [] else capLength cleaned.

(** cleanSuggestion, lines 113-144. *)
Definition cleanSuggestion (suggestion userText : jsstring) : jsstring :=
  cleanRest (afterEcho suggestion userText).

End Clean.

(** The ranges of general category P in Unicode 14.0, ends included. *)
Definition unicodeP_ranges : list (N * N) :=
  (
  [(33, 35); (37, 42); (44, 47); (58, 59); (63, 64); (91, 93); (95, 95);
   (123, 123); (125, 125); (161, 161); (167, 167); (171, 171); (182, 183);
   (187, 187); (191, 191); (894, 894); (903, 903); (1370, 1375);
   (1417, 1418); (1470, 1470); (1472, 1472); (1475, 1475); (1478, 1478);
   (1523, 1524); (1545, 1546); (1548, 1549); (1563, 1563); (1565, 1567);
   (1642, 1645); (1748, 1748); (1792, 1805); (2039, 2041); (2096, 2110);
   (2142, 2142); (2404, 2405); (2416, 2416); (2557, 2557); (2678, 2678);
   (2800, 2800); (3191, 3191); (3204, 3204); (3572, 3572); (3663, 3663);
   (3674, 3675); (3844, 3858); (3860, 3860); (3898, 3901); (3973, 3973);
   (4048, 4052); (4057, 4058); (4170, 4175); (4347, 4347); (4960, 4968);
   (5120, 5120); (5742, 5742); (5787, 5788); (5867, 5869); (5941, 5942);
   (6100, 6102); (6104, 6106); (6144, 6154); (6468, 6469); (6686, 6687);
   (6816, 6822); (6824, 6829); (7002, 7008); (7037, 7038); (7164, 7167);
   (7227, 7231); (7294, 7295); (7360, 7367); (7379, 7379); (8208, 8231);
   (8240, 8259); (8261, 8273); (8275, 8286); (8317, 8318); (8333, 8334);
   (8968, 8971); (9001, 9002); (10088, 10101); (10181, 10182);
   (10214, 10223); (10627, 10648); (10712, 10715); (10748, 10749);
   (11513, 11516); (11518, 11519); (11632, 11632); (11776, 11822);
   (11824, 11855); (11858, 11869); (12289, 12291); (12296, 12305);
   (12308, 12319); (12336, 12336); (12349, 12349); (12448, 12448);
   (12539, 12539); (42238, 42239); (42509, 42511); (42611, 42611);
   (42622, 42622); (42738, 42743); (43124, 43127); (43214, 43215);
   (43256, 43258); (43260, 43260); (43310, 43311); (43359, 43359);
   (43457, 43469); (43486, 43487); (43612, 43615); (43742, 43743);
   (43760, 43761); (44011, 44011); (64830, 64831); (65040, 65049);
   (65072, 65106); (65108, 65121); (65123, 65123); (65128, 65128);
   (65130, 65131); (65281, 65283); (65285, 65290); (65292, 65295);
   (65306, 65307); (65311, 65312); (65339, 65341); (65343, 65343);
   (65371, 65371); (65373, 65373); (65375, 65381); (65792, 65794);
   (66463, 66463); (66512, 66512); (66927, 66927); (67671, 67671);
   (67871, 67871); (67903, 67903); (68176, 68184); (68223, 68223);
   (68336, 68342); (68409, 68415); (68505, 68508); (69293, 69293);
   (69461, 69465); (69510, 69513); (69703, 69709); (69819, 69820);
   (69822, 69825); (69952, 69955); (70004, 70005); (70085, 70088);
   (70093, 70093); (70107, 70107); (70109, 70111); (70200, 70205);
   (70313, 70313); (70731, 70735); (70746, 70747); (70749, 70749);
   (70854, 70854); (71105, 71127); (71233, 71235); (71264, 71276);
   (71353, 71353); (71484, 71486); (71739, 71739); (72004, 72006);
   (72162, 72162); (72255, 72262); (72346, 72348); (72350, 72354);
   (72769, 72773); (72816, 72817); (73463, 73464); (73727, 73727);
   (74864, 74868); (77809, 77810); (92782, 92783); (92917, 92917);
   (92983, 92987); (92996, 92996); (93847, 93850); (94178, 94178);
   (113823, 113823); (121479, 121483); (125278, 125279)])%N.

Definition unicodeP (cp : N) : bool :=
  existsb (fun r => (fst r <=? cp) && (cp <=? snd r))%N unicodeP_ranges.

(** ** MistralHandler: the FIM transport *)

Module Mistral.

(** ModelInfo of the types package; only [maxTokens] is read here. *)
Record ModelInfo := { maxTokens : option Z }.

(** The fields of ApiHandlerOptions that the handler reads; [None] is
    [undefined]. *)
Record ApiHandlerOptions := {
  mistralApiKey : option jsstring;
  apiModelId : option jsstring;
  mistralCodestralUrl : option jsstring;
  includeMaxTokens : option bool;
  modelTemperature : option Q;
}.

Record MistralHandler := { options : ApiHandlerOptions }.

(** The object given to [JSON.stringify] as the request body. *)
Record FimBody := {
  model : jsstring;
  prompt : jsstring;
  suffix : jsstring;
  max_tokens : Z;
  temperature : Q;
  stream : bool;
}.

(** The arguments of [fetch]. *)
Record FimRequest := {
  endpoint : jsstring;
  method : jsstring;
  body : FimBody;
  headers : gmap jsstring jsstring;
}.

Record Response := {
  status : Z;
  statusText : jsstring;
  text : jsstring;
}.

(** [response.ok]: the status is in the range 200-299. *)
Definition ok (r : Response) : bool := (200 <=? status r) && (status r <=? 299).

(** The payload of one server-sent event, as far as streamFim looks into
    it: [{choices?: [{delta?: {content?: string}}]}]. *)
Record Delta := { content : option jsstring }.
Record Choice := { delta : option Delta }.
Record SseData := { choices : option (list Choice) }.

(** What the handler imports and what the platform provides: the model
    table and constants of the types package, DEFAULT_HEADERS, the URL
    constructor, [fetch], and [streamSse] of the fetch helpers.  They are
    defined outside the handler, so they are parameters. *)
Class Env := {
  mistralDefaultModelId : jsstring;
  mistralModels : jsstring -> option ModelInfo;
  (** [mistralModels[mistralDefaultModelId]], which the types guarantee *)
  mistralDefaultInfo : ModelInfo;
  MISTRAL_DEFAULT_TEMPERATURE : Q;
  DEFAULT_HEADERS : gmap jsstring jsstring;
  (** [new URL(path, base)]; throws on a base that is no URL *)
  URL_new : jsstring -> jsstring -> outcome jsstring;
  fetch : FimRequest -> outcome Response;
  streamSse : Response -> gen SseData;
}.

Section Handler.
Context {env : Env}.

(** The constructor, lines 28-45 (the SDK client is not used by FIM). *)
Definition new_MistralHandler (opts : ApiHandlerOptions) : outcome MistralHandler :=
  if negb (from_option truthy false (mistralApiKey opts))
  then Throw (Error (lit "Mistral API key is required"))
  else
    let apiModelId' :=
      match apiModelId opts with
      | Some id => or_else id mistralDefaultModelId
      | None => mistralDefaultModelId
      end in
    Return {| options := {|
      mistralApiKey := mistralApiKey opts;
      apiModelId := Some apiModelId';
      mistralCodestralUrl := mistralCodestralUrl opts;
      includeMaxTokens := includeMaxTokens opts;
      modelTemperature := modelTemperature opts |} |}.

Record Model := {
  id : jsstring;
  info : ModelInfo;
  model_maxTokens : option Z;
  model_temperature : Q;
}.

(** getModel, lines 98-107. *)
Definition getModel (this : MistralHandler) : Model :=
  let id := default mistralDefaultModelId (apiModelId (options this)) in
  let info := default mistralDefaultInfo (mistralModels id) in
  let maxTokens :=
    if default false (includeMaxTokens (options this)) then maxTokens info
    else None in
  let temperature :=
    default MISTRAL_DEFAULT_TEMPERATURE (modelTemperature (options this)) in
  {| id := id; info := info; model_maxTokens := maxTokens;
     model_temperature := temperature |}.

(** supportsFim, lines 140-143. *)
Definition supportsFim (this : MistralHandler) : bool :=
  let modelId := default mistralDefaultModelId (apiModelId (options this)) in
  startsWith modelId (lit "codestral-").

(** Lines 192-197: the loop over the server-sent events. *)
Fixpoint forwardContent (events : gen SseData) : gen jsstring :=
  match events with
  | Yield data rest =>
      let content :=
        cs ← choices data; c ← cs !! 0%nat; d ← delta c; content d in
      match content with
      | Some ((_ :: _) as content) => Yield content (forwardContent rest)
      | _ => forwardContent rest
      end
  | Done => Done
  | Fail e => Fail e
  end.

(** Lines 154-159: the base URL for the model. *)
Definition baseUrl (this : MistralHandler) : jsstring :=
  let model := id (getModel this) in
  if startsWith model (lit "codestral-")
  then or_else (default [] (mistralCodestralUrl (options this)))
               (lit "https://codestral.mistral.ai")
  else lit "https://api.mistral.ai".

(** Lines 163-185: the request that streamFim hands to [fetch]. *)
Definition fimRequest (this : MistralHandler) (endpoint prefix suffix : jsstring)
  : FimRequest :=
  let m := getModel this in
  let headers :=
    <[lit "Authorization" :=
        lit "Bearer " ++ default (lit "undefined") (mistralApiKey (options this))]>
    (<[lit "Accept" := lit "application/json"]>
    (<[lit "Content-Type" := lit "application/json"]> DEFAULT_HEADERS)) in
  let temperature := 0.2%Q in
  let requestMaxTokens := 256 in
  {| endpoint := endpoint;
     method := lit "POST";
     body := {| model := id m;
                prompt := prefix;
                suffix := suffix;
                max_tokens :=
                  Z.min requestMaxTokens (default requestMaxTokens (model_maxTokens m));
                temperature := temperature;
                stream := true |};
     headers := headers |}.

(** streamFim, lines 153-198.  The result is what a consumer of the
    generator observes, with the requests given to [fetch]. *)
Definition streamFim (this : MistralHandler) (prefix suffix : jsstring)
  : gen jsstring * list FimRequest :=
  match URL_new (lit "v1/fim/completions") (baseUrl this) with
  | Throw e => (Fail e, [])
  | Return endpoint =>
      let request := fimRequest this endpoint prefix suffix in
      match fetch request with
      | Throw e => (Fail e, [request])
      | Return response =>
          if negb (ok response) then
            let errorText := text response in
            (Fail (Error (lit "FIM streaming failed: "
                          ++ Number_toString (status response) ++ lit " "
                          ++ statusText response ++ lit " - " ++ errorText)),
             [request])
          else (forwardContent (streamSse response), [request])
      end
  end.

(** Lines 146-150: the loop of completeFim over the chunks. *)
Fixpoint accumulate (chunks : gen jsstring) (result : jsstring) : outcome jsstring :=
  match chunks with
  | Yield chunk rest => accumulate rest (result ++ chunk)
  | Done => Return result
  | Fail e => Throw e
  end.

(** completeFim, lines 145-151. *)
Definition completeFim (this : MistralHandler) (prefix suffix : jsstring)
  : outcome jsstring * list FimRequest :=
  let result := [] in
  let '(chunks, sent) := streamFim this prefix suffix in
  (accumulate chunks result, sent).

End Handler.
End Mistral.

(** ** ChatTextAreaAutocomplete: the service *)

Module Chat.

(** VisibleRange, VisibleEditorInfo and VisibleCodeContext of the ghost
    types (cursorPosition, selections and diffInfo are never read). *)
Record VisibleRange := {
  startLine : Z;
  endLine : Z;
  content : jsstring;
}.

Record VisibleEditorInfo := {
  filePath : jsstring;
  relativePath : jsstring;
  languageId : jsstring;
  isActive : bool;
  visibleRanges : list VisibleRange;
}.

Record VisibleCodeContext := {
  timestamp : Z;
  editors : list VisibleEditorInfo;
}.

Record Completion := { suggestion : jsstring }.

(** The calls the service makes on its collaborators, and the requests
    that reach the model transport below them. *)
Inductive call : Type :=
  | CallReload
  | CallReadClipboard
  | CallGenerateFim (prefix suffix : jsstring)
  | CallFetch (request : Mistral.FimRequest).

(** The interface of GhostModel that the service uses; the class itself
    is defined elsewhere.  [generateFimResponse] is given by the
    chunks it passes to [onChunk], how its promise ends, and the calls it
    makes underneath. *)
Class GhostModel (G : Type) := {
  loaded : G -> bool;
  reload : G -> outcome bool * G;
  supportsFim : G -> bool;
  generateFimResponse : G -> jsstring -> jsstring -> gen jsstring * G * list call;
}.

Section Service.
Context {G : Type} `{GhostModel G}.

(** The punctuation table of the engine. *)
Variable punct : N -> bool.

(** What [vscode.env.clipboard.readText()] resolves to or rejects with. *)
Variable clipboard : outcome jsstring.

(** Async methods of the service: the model is the state, calls are
    logged, and a rejected promise is [Throw]. *)
Definition M (A : Type) : Type := G -> outcome A * G * list call.

#[local] Instance M_ret : MRet M := fun A a g => (Return a, g, []).

#[local] Instance M_bind : MBind M := fun A B f m g =>
  match m g with
  | (Return a, g', l) => let '(r, g'', l') := f a g' in (r, g'', l ++ l')
  | (Throw e, g', l) => (Throw e, g', l)
  end.

Definition try_catch {A} (m : M A) (handler : exn -> M A) : M A := fun g =>
  match m g with
  | (Return a, g', l) => (Return a, g', l)
  | (Throw e, g', l) => let '(r, g'', l') := handler e g' in (r, g'', l ++ l')
  end.

Definition read {A} (f : G -> A) : M A := fun g => (Return (f g), g, []).

Definition readText : M jsstring := fun g => (clipboard, g, [CallReadClipboard]).

(** initialize, lines 18-20. *)
Definition initialize : M bool := fun g =>
  let '(r, g') := reload g in (r, g', [CallReload]).

(** isFimAvailable, lines 22-24. *)
Definition isFimAvailable (g : G) : bool := loaded g && supportsFim g.

(** getClipboardContext, lines 96-107. *)
Definition getClipboardContext : M (option jsstring) :=
  try_catch
    (text ← readText;
     if truthy text && (5 <? length text) && (length text <? 500)
     then mret (Some text)
     else mret None)
    (fun error => mret None).

(** Lines 71-78: what one visible editor adds to the parts. *)
Definition editorParts (editor : VisibleEditorInfo) : list jsstring :=
  let fileName :=
    or_else (default [] (last (split 47 (filePath editor)))) (filePath editor) in
  (LF :: lit "// File: " ++ fileName ++ lit " (" ++ languageId editor ++ lit ")")
    :: (content <$> visibleRanges editor).

(** Lines 65-79. *)
Definition visibleParts (visibleCodeContext : option VisibleCodeContext)
  : list jsstring :=
  match visibleCodeContext with
  | Some ctx =>
      if (0 <? Z.of_nat (List.length (editors ctx)))
      then lit "// Code visible in editor:" :: mjoin (editorParts <$> editors ctx)
      else []
  | None => []
  end.

(** buildPrefix, lines 64-91. *)
Definition buildPrefix (userText : jsstring)
    (visibleCodeContext : option VisibleCodeContext) : M jsstring :=
  let contextParts := visibleParts visibleCodeContext in
  clipboardContent ← getClipboardContext;
  let contextParts :=
    match clipboardContent with
    | Some ((_ :: _) as clipboardContent) =>
        contextParts ++ [LF :: lit "// Clipboard content:"; clipboardContent]
    | _ => contextParts
    end in
  let contextParts := contextParts ++ [LF :: lit "// User's message:"; userText] in
  mret (join [LF] contextParts).

(** Lines 46-49: the callback appends every chunk to [response]. *)
Fixpoint appendChunks (chunks : gen jsstring) (response : jsstring)
  : outcome unit * jsstring :=
  match chunks with
  | Yield chunk rest => appendChunks rest (response ++ chunk)
  | Done => (Return tt, response)
  | Fail e => (Throw e, response)
  end.

Definition awaitFimResponse (prefix suffix response : jsstring) : M jsstring :=
  fun g =>
    let '(chunks, g', below) := generateFimResponse g prefix suffix in
    match appendChunks chunks response with
    | (Return _, response) => (Return response, g', CallGenerateFim prefix suffix :: below)
    | (Throw e, _) => (Throw e, g', CallGenerateFim prefix suffix :: below)
    end.

(** getCompletion, lines 26-59. *)
Definition getCompletion (userText : jsstring)
    (visibleCodeContext : option VisibleCodeContext) : M Completion :=
  isLoaded ← read loaded;
  go_on ← (if negb isLoaded then initialize else mret true);
  if negb go_on then mret {| suggestion := [] |}
  else
    fim ← read supportsFim;
    if negb fim then mret {| suggestion := [] |}
    else
      prefix ← buildPrefix userText visibleCodeContext;
      let suffix := [] in
      response ← awaitFimResponse prefix suffix [];
      let cleanedSuggestion := cleanSuggestion punct response userText in
      mret {| suggestion := cleanedSuggestion |}.

End Service.

End Chat.

(** ** MistralHandler: chat completion through the SDK client *)

Module MistralChat.

(** ContentChunkWithThinking, lines 18-22, and the parts of a thinking
    chunk. *)
Record ThinkingPart := {
  part_type : jsstring;
  part_text : option jsstring;
}.

Record ContentChunk := {
  chunk_type : jsstring;
  chunk_text : option jsstring;
  chunk_thinking : option (list ThinkingPart);
}.

(** A content of the SDK: a string or an array of chunks ([None] stands
    for null and undefined where a content is optional). *)
Inductive Content : Type :=
  | ContentString (s : jsstring)
  | ContentArray (chunks : list ContentChunk).

(** One event of [client.chat.stream]. *)
Record Delta := { content : option Content }.
Record Choice := { delta : Delta }.
Record Usage := {
  promptTokens : option Z;
  completionTokens : option Z;
}.
Record Event := {
  choices : list Choice;
  usage : option Usage;
}.

(** The chunks of an ApiStream that createMessage yields. *)
Inductive ApiStreamChunk : Type :=
  | TextChunk (text : jsstring)
  | ReasoningChunk (text : jsstring)
  | UsageChunk (inputTokens outputTokens : Z).

(** The response of [client.chat.complete]. *)
Record CompletionChoice := { message_content : option Content }.
Record CompletionResponse := { completion_choices : option (list CompletionChoice) }.

(** The argument of [client.chat.stream] and [client.chat.complete]; a
    field left out of the object literal is [None]. *)
Record ChatRequest (Message : Type) := {
  model : jsstring;
  messages : list Message;
  maxTokens : option Z;
  temperature : Q;
}.
Arguments model {Message} _.
Arguments messages {Message} _.
Arguments maxTokens {Message} _.
Arguments temperature {Message} _.

(** What a [catch] clause receives: an Error, or a value that is no
    instance of Error. *)
Inductive thrown : Type :=
  | ThrownError (e : exn)
  | ThrownOther (value : jsstring).

Inductive result (A : Type) : Type :=
  | Resolved (a : A)
  | Rejected (t : thrown).
Arguments Resolved {A} a.
Arguments Rejected {A} t.

(** The SDK client and the message conversion, both defined outside the
    handler. *)
Class Client := {
  AnthropicMessage : Type;
  Message : Type;
  (** the object literal [{ role, content }] *)
  messageOf : jsstring -> jsstring -> Message;
  convertToMistralMessages : list AnthropicMessage -> list Message;
  chat_stream : ChatRequest Message -> outcome (gen Event);
  chat_complete : ChatRequest Message -> result CompletionResponse;
}.

Section Handler.
Context {env : Mistral.Env} {client : Client}.

(** [n || 0] on an optional number. *)
Definition or_zero (n : option Z) : Z := default 0 n.

(** Lines 75-79: the reasoning chunks of one thinking chunk. *)
Definition thinkingYields (parts : list ThinkingPart) : list ApiStreamChunk :=
  omap (fun thinkingPart =>
          match part_text thinkingPart with
          | Some ((_ :: _) as text) =>
              if bool_decide (part_type thinkingPart = lit "text")
              then Some (ReasoningChunk text) else None
          | _ => None
          end) parts.

(** Lines 72-83: what one chunk of an array content yields. *)
Definition chunkYields (chunk : ContentChunk) : list ApiStreamChunk :=
  match (if bool_decide (chunk_type chunk = lit "thinking")
         then chunk_thinking chunk else None) with
  | Some thinking => thinkingYields thinking
  | None =>
      match chunk_text chunk with
      | Some ((_ :: _) as text) =>
          if bool_decide (chunk_type chunk = lit "text")
          then [TextChunk text] else []
      | _ => []
      end
  end.

(** Lines 62-94: what one event yields, content first, usage last. *)
Definition eventYields (event : Event) : list ApiStreamChunk :=
  let delta := delta <$> choices event !! 0%nat in
  match delta ≫= content with
  | Some (ContentString ((_ :: _) as text)) => [TextChunk text]
  | Some (ContentString []) => []
  | Some (ContentArray chunks) => chunks ≫= chunkYields
  | None => []
  end
  ++ match usage event with
     | Some u =>
         [UsageChunk (or_zero (promptTokens u)) (or_zero (completionTokens u))]
     | None => []
     end.

Fixpoint yieldAll {A} (xs : list A) (rest : gen A) : gen A :=
  match xs with
  | [] => rest
  | x :: xs' => Yield x (yieldAll xs' rest)
  end.

(** Lines 61-95: the loop over the events of the response. *)
Fixpoint forwardEvents (response : gen Event) : gen ApiStreamChunk :=
  match response with
  | Yield event rest => yieldAll (eventYields event) (forwardEvents rest)
  | Done => Done
  | Fail e => Fail e
  end.

(** Lines 52-59: the request of createMessage. *)
Definition streamRequest (this : Mistral.MistralHandler) (systemPrompt : jsstring)
    (msgs : list AnthropicMessage) : ChatRequest Message :=
  let m := Mistral.getModel this in
  {| model := Mistral.id m;
     messages := messageOf (lit "system") systemPrompt :: convertToMistralMessages msgs;
     maxTokens := Mistral.model_maxTokens m;
     temperature := Mistral.model_temperature m |}.

(** createMessage, lines 47-96: what a consumer of the generator
    observes, with the requests given to the client. *)
Definition createMessage (this : Mistral.MistralHandler) (systemPrompt : jsstring)
    (msgs : list AnthropicMessage)
  : gen ApiStreamChunk * list (ChatRequest Message) :=
  let request := streamRequest this systemPrompt msgs in
  match chat_stream request with
  | Throw e => (Fail e, [request])
  | Return response => (forwardEvents response, [request])
  end.

(** Lines 121-129: the text of the content of a completion. *)
Definition contentText (content : option Content) : jsstring :=
  match content with
  | Some (ContentArray chunks) =>
      mjoin ((fun c => or_else (default [] (chunk_text c)) [])
             <$> List.filter
                   (fun c => bool_decide (chunk_type c = lit "text")
                             && from_option truthy false (chunk_text c))
                   chunks)
  | Some (ContentString s) => or_else s []
  | None => []
  end.

(** completePrompt, lines 109-137. *)
Definition completePrompt (this : Mistral.MistralHandler) (prompt : jsstring)
  : result jsstring * list (ChatRequest Message) :=
  let m := Mistral.getModel this in
  let request :=
    {| model := Mistral.id m;
       messages := [messageOf (lit "user") prompt];
       maxTokens := None;
       temperature := Mistral.model_temperature m |} in
  match chat_complete request with
  | Resolved response =>
      let content :=
        cs ← completion_choices response; c ← cs !! 0%nat; message_content c in
      (Resolved (contentText content), [request])
  | Rejected (ThrownError error) =>
      (Rejected (ThrownError
         (Error (lit "Mistral completion error: " ++ message error))), [request])
  | Rejected (ThrownOther error) => (Rejected (ThrownOther error), [request])
  end.

End Handler.
End MistralChat.

(** ** Conversion utilities of the ghost types *)

Module GhostTypes.

Record Position := { line : Z; character : Z }.
Record Range := { range_start : Position; range_end : Position }.

(** What the utilities use of a [vscode.TextDocument]. *)
Record TextDocument := {
  getText : jsstring;
  offsetAt : Position -> Z;
  positionAt : Z -> Position;
  isUntitled : bool;
  fsPath : jsstring;
}.

Record PrefixSuffix := { prefix : jsstring; suffix : jsstring }.

(** extractPrefixSuffix. *)
Definition extractPrefixSuffix (document : TextDocument) (position : Position)
  : PrefixSuffix :=
  let offset := offsetAt document position in
  let text := getText document in
  {| prefix := substring text 0 (Some offset);
     suffix := substring text offset None |}.

(** vscodePositionToPosition. *)
Definition vscodePositionToPosition (pos : Position) : Position :=
  {| line := line pos; character := character pos |}.

Section Conversion.
(** The snippet and edited-range types come from elsewhere; they are only
    passed on. *)
Context {Snippet Edited : Type}.

Record GhostSuggestionContext := {
  document : TextDocument;
  range : option Range;
  recentlyVisitedRanges : option (list Snippet);
  recentlyEditedRanges : option (list Edited);
}.

Record AutocompleteInput := {
  isUntitledFile : bool;
  completionId : jsstring;
  filepath : jsstring;
  pos : Position;
  input_recentlyVisitedRanges : list Snippet;
  input_recentlyEditedRanges : list Edited;
  manuallyPassFileContents : option jsstring;
  manuallyPassPrefix : option jsstring;
}.

(** contextToAutocompleteInput; [uuid] is what [crypto.randomUUID()]
    gives at the call. *)
Definition contextToAutocompleteInput (uuid : jsstring)
    (context : GhostSuggestionContext) : AutocompleteInput :=
  let position :=
    match range context with
    | Some r => range_start r
    | None => positionAt (document context) 0
    end in
  let ps := extractPrefixSuffix (document context) position in
  let recentlyVisitedRanges := default [] (recentlyVisitedRanges context) in
  let recentlyEditedRanges := default [] (recentlyEditedRanges context) in
  {| isUntitledFile := isUntitled (document context);
     completionId := uuid;
     filepath := fsPath (document context);
     pos := vscodePositionToPosition position;
     input_recentlyVisitedRanges := recentlyVisitedRanges;
     input_recentlyEditedRanges := recentlyEditedRanges;
     manuallyPassFileContents := None;
     manuallyPassPrefix := Some (prefix ps) |}.

End Conversion.
End GhostTypes.

(** * Vocabulary of the statements *)

Definition headIsSpace (s : jsstring) : bool :=
  match s with c :: _ => isWhiteSpace c | [] => false end.

Definition lastIsSpace (s : jsstring) : bool := headIsSpace (reverse s).

(** The last code unit is a high surrogate, which nothing follows. *)
Definition endsWithHigh (s : jsstring) : bool :=
  match last s with Some c => isHighSurrogate c | None => false end.

Definition startsWithLow (s : jsstring) : bool :=
  match s with c :: _ => isLowSurrogate c | [] => false end.

(** Every code point is white space or punctuation. *)
Definition allSpaceOrPunct (punct : N -> bool) (s : jsstring) : bool :=
  forallb (fun cp => isWhiteSpace cp || punct cp) (codePoints s).

(** The fragment one server-sent event gives, if any: the content of the
    delta of its first choice, when that is a non-empty string. *)
Definition fragmentOf (data : Mistral.SseData) : option jsstring :=
  match Mistral.choices data with
  | Some (choice :: _) =>
      match Mistral.delta choice with
      | Some d =>
          match Mistral.content d with
          | Some (c :: rest) => Some (c :: rest)
          | _ => None
          end
      | None => None
      end
  | _ => None
  end.

(** The concatenation, in order, of the fragments of a stream that ends
    well; the failure of one that does not. *)
Definition foldFragments (chunks : gen jsstring) : outcome jsstring :=
  match ending chunks with
  | Return _ => Return (mjoin (yields chunks))
  | Throw e => Throw e
  end.

(** What the clipboard adds to the context parts: a header and the text
    when the text was read and has 6 to 499 code units, nothing otherwise. *)
Definition clipboardFragment (clipboard : outcome jsstring) : list jsstring :=
  match clipboard with
  | Return text =>
      if bool_decide (6 <= length text <= 499)
      then [LF :: lit "// Clipboard content:"; text]
      else []
  | Throw _ => []
  end.

(** The context blob: visible code, clipboard fragment, user text. *)
Definition contextBlob (clipboard : outcome jsstring) (userText : jsstring)
    (visibleCodeContext : option Chat.VisibleCodeContext) : jsstring :=
  join [LF] (Chat.visibleParts visibleCodeContext
             ++ clipboardFragment clipboard
             ++ [LF :: lit "// User's message:"; userText]).

(** The text of the text chunks of an ApiStream, in order. *)
Definition textOf (chunks : list MistralChat.ApiStreamChunk) : jsstring :=
  mjoin (omap (fun c => match c with
                        | MistralChat.TextChunk text => Some text
                        | _ => None
                        end) chunks).

(** The token counts of the usage chunks of an ApiStream, in order. *)
Definition usageOf (chunks : list MistralChat.ApiStreamChunk) : list (Z * Z) :=
  omap (fun c => match c with
                 | MistralChat.UsageChunk i o => Some (i, o)
                 | _ => None
                 end) chunks.

(** The content of the delta of the first choice of an event, if any. *)
Definition eventContent (event : MistralChat.Event) : option MistralChat.Content :=
  (MistralChat.delta <$> MistralChat.choices event !! 0%nat)
    ≫= MistralChat.content.

(** A text or reasoning chunk without text. *)
Definition emptyChunk (c : MistralChat.ApiStreamChunk) : Prop :=
  c = MistralChat.TextChunk [] \/ c = MistralChat.ReasoningChunk [].

(** * Example data *)

Module Ex.

(** A model table with two entries; the second has a small maximum. *)
Definition models (id : jsstring) : option Mistral.ModelInfo :=
  if bool_decide (id = lit "codestral-latest")
  then Some {| Mistral.maxTokens := Some 8192 |}
  else if bool_decide (id = lit "codestral-tiny")
  then Some {| Mistral.maxTokens := Some 128 |}
  else None.

(** An environment in which [fetch] ends as [answer] says and the events
    of a response are [events]. *)
Definition env (answer : outcome Mistral.Response) (events : gen Mistral.SseData)
  : Mistral.Env := {|
  Mistral.mistralDefaultModelId := lit "codestral-latest";
  Mistral.mistralModels := models;
  Mistral.mistralDefaultInfo := {| Mistral.maxTokens := Some 8192 |};
  Mistral.MISTRAL_DEFAULT_TEMPERATURE := 1%Q;
  Mistral.DEFAULT_HEADERS := ∅;
  Mistral.URL_new path base := Return (base ++ lit "/" ++ path);
  Mistral.fetch _ := answer;
  Mistral.streamSse _ := events;
|}.

Definition handler (modelId : string) (includeMax : option bool)
  : Mistral.MistralHandler := {|
  Mistral.options := {|
    Mistral.mistralApiKey := Some (lit "key");
    Mistral.apiModelId := Some (lit modelId);
    Mistral.mistralCodestralUrl := None;
    Mistral.includeMaxTokens := includeMax;
    Mistral.modelTemperature := None |} |}.

Definition codestral : Mistral.MistralHandler := handler "codestral-latest" None.
Definition tiny : Mistral.MistralHandler := handler "codestral-tiny" (Some true).
Definition chatOnly : Mistral.MistralHandler := handler "mistral-large-latest" None.

Definition endpoint : jsstring :=
  lit "https://codestral.mistral.ai/v1/fim/completions".

Definition event (content : string) : Mistral.SseData :=
  {| Mistral.choices :=
       Some [{| Mistral.delta := Some {| Mistral.content := Some (lit content) |} |}] |}.

(** Four events: two with text, one with an empty text, one without. *)
Definition events : gen Mistral.SseData :=
  Yield (event "foo")
    (Yield (event "")
      (Yield {| Mistral.choices := None |}
        (Yield (event " bar") Done))).

Definition answer200 : Mistral.Response :=
  {| Mistral.status := 200; Mistral.statusText := lit "OK"; Mistral.text := [] |}.

Definition answer500 : Mistral.Response :=
  {| Mistral.status := 500;
     Mistral.statusText := lit "Internal Server Error";
     Mistral.text := lit "oops" |}.

Definition networkDown : exn := Error (lit "fetch failed").

(** 60 letters, a space, 50 letters: 111 code units with the last space
    at index 60. *)
Definition longLine : jsstring :=
  replicate 60 97%N ++ [SPACE] ++ replicate 50 98%N.

(** Two copies of U+10100 AEGEAN WORD SEPARATOR LINE, a punctuation mark
    outside the basic plane (D800 DD00 in UTF-16). *)
Definition twoSeparators : jsstring := [55296; 56576; 55296; 56576]%N.

End Ex.

(** * Example data for the chat completion *)

Module ExChat.

(** A client whose stream and completion are given; messages are pairs of
    a role and a content, and the conversion keeps the contents. *)
Definition client (streamed : outcome (gen MistralChat.Event))
    (completed : MistralChat.result MistralChat.CompletionResponse)
  : MistralChat.Client := {|
  MistralChat.AnthropicMessage := jsstring;
  MistralChat.Message := jsstring * jsstring;
  MistralChat.messageOf role content := (role, content);
  MistralChat.convertToMistralMessages msgs := (fun m => (lit "user", m)) <$> msgs;
  MistralChat.chat_stream _ := streamed;
  MistralChat.chat_complete _ := completed;
|}.

Definition textChunk (text : string) : MistralChat.ContentChunk :=
  {| MistralChat.chunk_type := lit "text";
     MistralChat.chunk_text := Some (lit text);
     MistralChat.chunk_thinking := None |}.

Definition thinkingChunk (text : string) : MistralChat.ContentChunk :=
  {| MistralChat.chunk_type := lit "thinking";
     MistralChat.chunk_text := None;
     MistralChat.chunk_thinking :=
       Some [{| MistralChat.part_type := lit "text";
                MistralChat.part_text := Some (lit text) |}] |}.

Definition event (content : option MistralChat.Content)
    (usage : option MistralChat.Usage) : MistralChat.Event :=
  {| MistralChat.choices :=
       [{| MistralChat.delta := {| MistralChat.content := content |} |}];
     MistralChat.usage := usage |}.

(** A string, then an array with a thinking chunk and a text chunk, then
    an empty string with a usage that has no completion count. *)
Definition events : gen MistralChat.Event :=
  Yield (event (Some (MistralChat.ContentString (lit "Hel"))) None)
    (Yield (event (Some (MistralChat.ContentArray
                           [thinkingChunk "hm"; textChunk "lo"])) None)
      (Yield (event (Some (MistralChat.ContentString []))
                    (Some {| MistralChat.promptTokens := Some 7;
                             MistralChat.completionTokens := None |}))
         Done)).

Definition document (text : string) (offset : Z) : GhostTypes.TextDocument :=
  {| GhostTypes.getText := lit text;
     GhostTypes.offsetAt _ := offset;
     GhostTypes.positionAt _ := {| GhostTypes.line := 0; GhostTypes.character := 0 |};
     GhostTypes.isUntitled := false;
     GhostTypes.fsPath := lit "/w/a.ts" |}.

End ExChat.

(** * Example data: a scripted model *)

Module ExModel.

(** A model whose answers are written down: whether it is loaded, how a
    reload ends, whether it supports FIM, and the chunks it streams. *)
Record Scripted := {
  loaded_now : bool;
  reload_gives : outcome bool;
  fim : bool;
  chunks : gen jsstring;
}.

#[global] Instance Scripted_model : Chat.GhostModel Scripted := {
  Chat.loaded g := loaded_now g;
  Chat.reload g :=
    (reload_gives g,
     {| loaded_now := match reload_gives g with Return b => b | Throw _ => false end;
        reload_gives := reload_gives g; fim := fim g; chunks := chunks g |});
  Chat.supportsFim g := fim g;
  Chat.generateFimResponse g _ _ := (chunks g, g, []);
}.

(** The model echoes the user text, goes on, and starts a second line. *)
Definition echoing : gen jsstring :=
  Yield (lit "hello wor") (Yield (lit "ld") (Yield (LF :: lit "more") Done)).

Definition ready : Scripted :=
  {| loaded_now := true; reload_gives := Return true; fim := true;
     chunks := echoing |}.

Definition unloaded (reload : outcome bool) : Scripted :=
  {| loaded_now := false; reload_gives := reload; fim := true; chunks := echoing |}.

(** A model without FIM support, loaded or found by a reload. *)
Definition withoutFim (loaded : bool) : Scripted :=
  {| loaded_now := loaded; reload_gives := Return true; fim := false;
     chunks := echoing |}.

Definition settingsUnreadable : exn := Error (lit "cannot read provider settings").

End ExModel.

(** * Properties *)

(** ** Facts about the string operations *)

Section StringFacts.
Implicit Types s p r u : jsstring.

Lemma length_nonneg s : 0 <= length s.
Proof. unfold length. lia. Qed.

Lemma length_app s r : length (s ++ r) = length s + length r.
Proof. unfold length. rewrite List.length_app. lia. Qed.

Lemma startsWith_app p r : startsWith (p ++ r) p = true.
Proof.
  induction p as [|c p IH]; simpl; [done|].
  by rewrite N.eqb_refl, IH.
Qed.

Lemma startsWith_prefix s p : startsWith s p = true <-> exists r, s = p ++ r.
Proof.
  split.
  - revert s. induction p as [|c p IH]; intros s Hs.
    + by exists s.
    + destruct s as [|d s]; simpl in Hs; [done|].
      apply andb_true_iff in Hs as [Hc Hs%IH]. apply N.eqb_eq in Hc as ->.
      destruct Hs as [r ->]. by exists r.
  - intros [r ->]. apply startsWith_app.
Qed.

Lemma substring_from s n :
  0 <= n <= length s -> substring s n None = drop (Z.to_nat n) s.
Proof.
  intros Hn. unfold substring.
  assert (clamp (length s) n = n) as -> by (unfold clamp; lia).
  replace (Z.min n (length s)) with n by lia.
  apply take_ge. rewrite length_drop. unfold length in *. lia.
Qed.

Lemma substring_to s n :
  0 <= n -> substring s 0 (Some n) = take (Z.to_nat n) s.
Proof.
  intros Hn. pose proof (length_nonneg s) as Hlen. unfold substring.
  assert (clamp (length s) 0 = 0) as -> by (unfold clamp; lia).
  assert (clamp (length s) n = Z.min n (length s)) as -> by (unfold clamp; lia).
  replace (Z.min 0 (Z.min n (length s))) with 0 by lia.
  replace (Z.max 0 (Z.min n (length s)) - 0) with (Z.min n (length s)) by lia.
  change (Z.to_nat 0) with 0%nat. rewrite drop_0.
  destruct (Z.le_ge_cases n (length s)) as [Hle|Hge].
  - by rewrite Z.min_l by lia.
  - rewrite Z.min_r by lia. unfold length in *.
    rewrite !take_ge; [done| |]; lia.
Qed.

Lemma substring_prefix s (a : Z) e : length (substring s a e) <= length s.
Proof.
  unfold substring, length. rewrite length_take, length_drop. lia.
Qed.

(** *** White space at the ends *)

Lemma trimStart_split s :
  exists w, s = w ++ trimStart s /\ forallb isWhiteSpace w = true.
Proof.
  induction s as [|c s [w [Hs Hw]]]; simpl.
  - by exists [].
  - destruct (isWhiteSpace c) eqn:Hc.
    + exists (c :: w). simpl. rewrite Hc, Hw. split; [by f_equal|done].
    + by exists [].
Qed.

Lemma trimStart_head s : headIsSpace (trimStart s) = false.
Proof.
  induction s as [|c s IH]; simpl; [done|].
  destruct (isWhiteSpace c) eqn:Hc; [done|]. simpl. by rewrite Hc.
Qed.

Lemma trimStart_fixed s : headIsSpace s = false -> trimStart s = s.
Proof. destruct s as [|c s]; simpl; [done|]. by intros ->. Qed.

Lemma forallb_reverse {A} (f : A -> bool) (l : list A) :
  forallb f (reverse l) = forallb f l.
Proof.
  induction l as [|a l IH]; [done|].
  rewrite reverse_cons, forallb_app, IH. simpl.
  by destruct (f a), (forallb f l).
Qed.

Lemma trimEnd_split s :
  exists w, s = trimEnd s ++ w /\ forallb isWhiteSpace w = true.
Proof.
  unfold trimEnd. destruct (trimStart_split (reverse s)) as [w [Hs Hw]].
  exists (reverse w). split.
  - rewrite <- reverse_app, <- Hs. by rewrite reverse_involutive.
  - by rewrite forallb_reverse.
Qed.

Lemma trimEnd_last s : lastIsSpace (trimEnd s) = false.
Proof.
  unfold lastIsSpace, trimEnd. rewrite reverse_involutive. apply trimStart_head.
Qed.

Lemma trimEnd_fixed s : lastIsSpace s = false -> trimEnd s = s.
Proof.
  unfold lastIsSpace, trimEnd. intros Hs.
  by rewrite trimStart_fixed, reverse_involutive.
Qed.

Lemma lastIsSpace_app s r : r <> [] -> lastIsSpace (s ++ r) = lastIsSpace r.
Proof.
  intros Hr. unfold lastIsSpace. rewrite reverse_app.
  destruct (reverse r) as [|c r'] eqn:Hrev; [|done].
  apply (f_equal reverse) in Hrev. rewrite reverse_involutive in Hrev. done.
Qed.

Lemma trim_last s : lastIsSpace (trim s) = false.
Proof. apply trimEnd_last. Qed.

Lemma trim_fixed s : headIsSpace s = false -> lastIsSpace s = false -> trim s = s.
Proof. intros Hh Hl. unfold trim. by rewrite trimStart_fixed, trimEnd_fixed. Qed.

Lemma trim_split s :
  exists w1 w2, s = w1 ++ trim s ++ w2
    /\ forallb isWhiteSpace w1 = true /\ forallb isWhiteSpace w2 = true.
Proof.
  destruct (trimStart_split s) as [w1 [H1 Hw1]].
  destruct (trimEnd_split (trimStart s)) as [w2 [H2 Hw2]].
  exists w1, w2. unfold trim. by rewrite <- H2.
Qed.

Lemma trim_length s : length (trim s) <= length s.
Proof.
  destruct (trim_split s) as [w1 [w2 [Hs _]]].
  rewrite Hs at 2. rewrite !length_app.
  pose proof (length_nonneg w1). pose proof (length_nonneg w2). lia.
Qed.

Lemma trimStart_length s : length (trimStart s) <= length s.
Proof.
  destruct (trimStart_split s) as [w [Hs _]].
  rewrite Hs at 2. rewrite length_app. pose proof (length_nonneg w). lia.
Qed.

End StringFacts.

(** ** Facts about the steps of cleanSuggestion *)

Section CleanFacts.
Variable punct : N -> bool.
Implicit Types s p r u x : jsstring.

Lemma indexOf_from_absent (c : N) s k : c ∉ s -> indexOf_from s [c] k = -1.
Proof.
  revert k. induction s as [|d s IH]; intros k Hc; simpl; [done|].
  apply not_elem_of_cons in Hc as [Hcd Hc].
  destruct (N.eqb_spec c d) as [->|_]; [done|]. simpl. by apply IH.
Qed.

Lemma indexOf_from_present (c : N) s k :
  c ∈ s ->
  exists a b, s = a ++ c :: b /\ (c ∉ a) /\ indexOf_from s [c] k = k + length a.
Proof.
  revert k. induction s as [|d s IH]; intros k Hc; [by apply elem_of_nil in Hc|].
  simpl. destruct (N.eqb_spec c d) as [->|Hcd]; simpl.
  - exists [], s. split; [done|]. split; [apply not_elem_of_nil|].
    unfold length. simpl. lia.
  - apply elem_of_cons in Hc as [?|Hc]; [done|].
    destruct (IH (k + 1) Hc) as [a [b [-> [Ha Hk]]]].
    exists (d :: a), b. split; [done|]. split.
    + by apply not_elem_of_cons.
    + rewrite Hk. unfold length. simpl List.length. lia.
Qed.

(** The echo step removes the user text from the trimmed candidate. *)
Lemma afterEcho_strips s u r : trim s = u ++ r -> afterEcho s u = r.
Proof.
  intros Hs. unfold afterEcho. rewrite Hs, startsWith_app.
  rewrite substring_from.
  - unfold length. rewrite Nat2Z.id. apply drop_app_length.
  - rewrite length_app. pose proof (length_nonneg u). pose proof (length_nonneg r). lia.
Qed.

Lemma afterEcho_keeps s u : startsWith (trim s) u = false -> afterEcho s u = trim s.
Proof. intros Hs. unfold afterEcho. by rewrite Hs. Qed.

(** Either way, what is left is the end of the trimmed candidate. *)
Lemma afterEcho_suffix s u :
  exists p, trim s = p ++ afterEcho s u
    /\ (p = [] \/ p = u /\ startsWith (trim s) u = true).
Proof.
  destruct (startsWith (trim s) u) eqn:Hs.
  - pose proof Hs as Hs'. apply startsWith_prefix in Hs as [r Hr].
    exists u. rewrite (afterEcho_strips _ _ _ Hr). auto.
  - exists []. rewrite afterEcho_keeps by done. auto.
Qed.

Lemma firstLine_one_line x : LF ∉ x -> firstLine x = trimStart x.
Proof.
  intros Hx. unfold firstLine, indexOf. by rewrite indexOf_from_absent.
Qed.

Lemma firstLine_cut a b : LF ∉ a -> firstLine (a ++ LF :: b) = trimStart a.
Proof.
  intros Ha. unfold firstLine, indexOf.
  destruct (indexOf_from_present LF (a ++ LF :: b) 0) as [a' [b' [Hs [Ha' Hk]]]].
  { apply elem_of_app. right. apply elem_of_cons. by left. }
  assert (a' = a) as ->.
  { clear Hk. revert a' Hs Ha'. induction a as [|c a IH]; intros [|c' a'] Hs Ha'.
    - done.
    - injection Hs as <- _. exfalso. apply Ha'. apply elem_of_cons. by left.
    - injection Hs as -> _. exfalso. apply Ha. apply elem_of_cons. by left.
    - injection Hs as <- Hs. f_equal. apply IH.
      + intros ?. apply Ha. apply elem_of_cons. by right.
      + done.
      + intros ?. apply Ha'. apply elem_of_cons. by right. }
  rewrite Hk. pose proof (length_nonneg a) as Hlen.
  destruct (Z.eqb_spec (0 + length a) (-1)) as [?|_]; [lia|]. simpl negb.
  rewrite substring_to by lia. f_equal.
  replace (Z.to_nat (0 + length a)) with (List.length a) by (unfold length; lia).
  by rewrite take_app_length.
Qed.

(** The line kept is a trimmed beginning of the text, cut where no
    surrogate pair can be. *)
Lemma firstLine_split x :
  exists a b, x = a ++ b /\ firstLine x = trimStart a /\ (LF ∉ a)
    /\ (b = [] \/ exists b', b = LF :: b').
Proof.
  destruct (decide (LF ∈ x)) as [Hin|Hout].
  - destruct (indexOf_from_present LF x 0 Hin) as [a [b [-> [Ha _]]]].
    exists a, (LF :: b). rewrite firstLine_cut by done. eauto 6.
  - exists x, []. rewrite app_nil_r, firstLine_one_line by done. auto.
Qed.

Lemma firstLine_length x : length (firstLine x) <= length x.
Proof.
  destruct (firstLine_split x) as [a [b [-> [-> _]]]].
  rewrite length_app. pose proof (trimStart_length a). pose proof (length_nonneg b). lia.
Qed.

Lemma firstLine_head x : headIsSpace (firstLine x) = false.
Proof. unfold firstLine. apply trimStart_head. Qed.

Lemma isUnwanted_short x : length x < 2 -> isUnwantedSuggestion punct x = true.
Proof.
  intros Hx. unfold isUnwantedSuggestion.
  destruct (Z.ltb_spec (length x) 2) as [_|?]; [|lia].
  by repeat case_match.
Qed.

Lemma isUnwanted_length x : isUnwantedSuggestion punct x = false -> 2 <= length x.
Proof.
  intros Hx. destruct (Z.lt_ge_cases (length x) 2) as [Hlt|?]; [|done].
  by rewrite isUnwanted_short in Hx.
Qed.

Lemma capLength_short x : length x <= 100 -> capLength x = x.
Proof.
  intros Hx. unfold capLength.
  by destruct (Z.gtb_spec (length x) 100) as [?|_]; [lia|].
Qed.

Lemma cleanSuggestion_empty u : cleanSuggestion punct [] u = [].
Proof.
  unfold cleanSuggestion, afterEcho. change (trim []) with (@nil N).
  assert (substring [] (length u) None = []) as Hsub.
  { unfold substring. by rewrite drop_nil, take_nil. }
  rewrite Hsub. by destruct (startsWith [] u).
Qed.

End CleanFacts.

(** ** Code points across a cut *)

Section CodePointFacts.
Variable punct : N -> bool.
Implicit Types s a b u x w : jsstring.

(** Cutting a string decodes piecewise unless the cut falls between the
    two halves of a surrogate pair. *)
Lemma codePoints_app a b :
  endsWithHigh a && startsWithLow b = false ->
  codePoints (a ++ b) = codePoints a ++ codePoints b.
Proof.
  revert b.
  cut (forall a,
    (forall b, endsWithHigh a && startsWithLow b = false ->
       codePoints (a ++ b) = codePoints a ++ codePoints b)
    /\ (forall c b, endsWithHigh (c :: a) && startsWithLow b = false ->
       codePoints ((c :: a) ++ b) = codePoints (c :: a) ++ codePoints b)).
  { intros Hboth b. apply (Hboth a). }
  clear a. induction a as [|d a [IH1 IH2]].
  - split; [done|]. intros c [|d b] Hcut; [done|].
    unfold endsWithHigh in Hcut. simpl in Hcut. simpl. by rewrite Hcut.
  - split; [apply IH2|]. intros c b Hcut.
    change ((c :: d :: a) ++ b) with (c :: d :: (a ++ b)).
    change (codePoints (c :: d :: a ++ b)) with
      (if isHighSurrogate c && isLowSurrogate d
       then surrogatePair c d :: codePoints (a ++ b)
       else c :: codePoints ((d :: a) ++ b)).
    change (codePoints (c :: d :: a)) with
      (if isHighSurrogate c && isLowSurrogate d
       then surrogatePair c d :: codePoints a
       else c :: codePoints (d :: a)).
    unfold endsWithHigh in *. rewrite last_cons_cons in Hcut.
    destruct (isHighSurrogate c && isLowSurrogate d).
    + rewrite IH1; [done|]. destruct a as [|e a]; [done|].
      by rewrite last_cons_cons in Hcut.
    + by rewrite IH2.
Qed.

Lemma space_not_surrogate (c : N) :
  isWhiteSpace c = true -> isHighSurrogate c = false /\ isLowSurrogate c = false.
Proof.
  unfold isWhiteSpace, isHighSurrogate, isLowSurrogate. intros Hc.
  rewrite !orb_true_iff, !andb_true_iff, !N.leb_le, !N.eqb_eq in Hc.
  split; apply andb_false_iff; rewrite !N.leb_gt; lia.
Qed.

Lemma spaces_end_low w : forallb isWhiteSpace w = true -> endsWithHigh w = false.
Proof.
  intros Hw. unfold endsWithHigh. destruct (last w) as [c|] eqn:Hlast; [|done].
  apply last_Some in Hlast as [w' ->]. rewrite forallb_app in Hw.
  apply andb_true_iff in Hw as [_ Hc]. simpl in Hc.
  apply andb_true_iff in Hc as [Hc _]. by apply space_not_surrogate in Hc as [? _].
Qed.

Lemma spaces_start_high w : forallb isWhiteSpace w = true -> startsWithLow w = false.
Proof.
  destruct w as [|c w]; [done|]. simpl. intros [Hc _]%andb_true_iff.
  by apply space_not_surrogate in Hc as [_ ?].
Qed.

Lemma allSpaceOrPunct_app a b :
  endsWithHigh a && startsWithLow b = false ->
  allSpaceOrPunct punct (a ++ b) = true ->
  allSpaceOrPunct punct a = true /\ allSpaceOrPunct punct b = true.
Proof.
  intros Hcut. unfold allSpaceOrPunct. rewrite codePoints_app by done.
  rewrite forallb_app. apply andb_true_iff.
Qed.

Lemma allSpaceOrPunct_trimStart s :
  allSpaceOrPunct punct s = true -> allSpaceOrPunct punct (trimStart s) = true.
Proof.
  destruct (trimStart_split s) as [w [Hs Hw]]. rewrite Hs at 1.
  intros H. apply allSpaceOrPunct_app in H; [tauto|].
  by rewrite spaces_end_low.
Qed.

Lemma allSpaceOrPunct_trim s :
  allSpaceOrPunct punct s = true -> allSpaceOrPunct punct (trim s) = true.
Proof.
  intros H%allSpaceOrPunct_trimStart. unfold trim.
  destruct (trimEnd_split (trimStart s)) as [w [Hs Hw]]. rewrite Hs in H.
  apply allSpaceOrPunct_app in H; [tauto|].
  rewrite (spaces_start_high w) by done. apply andb_false_r.
Qed.

Lemma allSpaceOrPunct_afterEcho s u :
  endsWithHigh u = false ->
  allSpaceOrPunct punct s = true -> allSpaceOrPunct punct (afterEcho s u) = true.
Proof.
  intros Hu H%allSpaceOrPunct_trim.
  destruct (afterEcho_suffix s u) as [p [Hs Hp]]. rewrite Hs in H.
  apply allSpaceOrPunct_app in H; [tauto|].
  destruct Hp as [->|[-> _]]; [done|]. by rewrite Hu.
Qed.

Lemma allSpaceOrPunct_firstLine x :
  allSpaceOrPunct punct x = true -> allSpaceOrPunct punct (firstLine x) = true.
Proof.
  destruct (firstLine_split x) as [a [b [-> [-> [_ Hb]]]]]. intros H.
  apply allSpaceOrPunct_trimStart. apply allSpaceOrPunct_app in H; [tauto|].
  destruct Hb as [->|[b' ->]]; apply andb_false_r.
Qed.

Lemma isUnwanted_allSpaceOrPunct x :
  allSpaceOrPunct punct x = true -> isUnwantedSuggestion punct x = true.
Proof.
  intros Hx. destruct (Z.lt_ge_cases (length x) 2) as [Hlt|Hge].
  - by apply isUnwanted_short.
  - unfold isUnwantedSuggestion, onlySpaceOrPunct.
    fold (allSpaceOrPunct punct x). rewrite Hx.
    destruct x as [|c x]; [unfold length in Hge; simpl in Hge; lia|].
    simpl truthy. rewrite orb_true_r. by repeat case_match.
Qed.

End CodePointFacts.

(** ** The backward search of the length cap *)

Section LastIndexOfFacts.
Implicit Types s x : jsstring.

Lemma lastIndexOf_scan_char (c : N) s (k start best : Z) :
  (lastIndexOf_scan s [c] k start best = best
   /\ forall i : nat, k + Z.of_nat i <= start -> s !! i <> Some c)
  \/ (exists i : nat,
        lastIndexOf_scan s [c] k start best = k + Z.of_nat i
        /\ k + Z.of_nat i <= start /\ s !! i = Some c
        /\ forall j : nat, (i < j)%nat -> k + Z.of_nat j <= start -> s !! j <> Some c).
Proof.
  revert k best. induction s as [|d s IH]; intros k best.
  - left. simpl. rewrite andb_false_r. split; [done|]. by intros i _.
  - simpl lastIndexOf_scan. rewrite andb_true_r.
    destruct (IH (k + 1) (if (k <=? start) && (c =? d)%N then k else best))
      as [[Hr Hnone]|[i [Hr [Hi [Hc Hnone]]]]].
    + destruct ((k <=? start) && (c =? d)%N) eqn:Hhere.
      * apply andb_true_iff in Hhere as [Hk%Z.leb_le ->%N.eqb_eq].
        right. exists 0%nat. rewrite Hr. split; [lia|]. split; [lia|].
        split; [done|]. intros [|j] Hj Hle; [lia|]. simpl. apply Hnone. lia.
      * left. split; [done|]. intros [|i] Hle; simpl.
        -- apply andb_false_iff in Hhere as [Hk%Z.leb_gt|Hcd%N.eqb_neq]; [lia|].
           congruence.
        -- apply Hnone. lia.
    + right. exists (S i). rewrite Hr. split; [lia|]. split; [lia|].
      split; [done|]. intros [|j] Hj Hle; [lia|]. simpl. apply Hnone; lia.
Qed.

(** On a text of more than 100 code units, [lastIndexOf(" ", 100)] is the
    greatest index up to 100 that holds a space, or -1. *)
Lemma lastIndexOf_space_100 x :
  100 < length x ->
  (lastIndexOf x [SPACE] 100 = -1
   /\ forall j : nat, (j <= 100)%nat -> x !! j <> Some SPACE)
  \/ (exists k : nat,
        lastIndexOf x [SPACE] 100 = Z.of_nat k /\ (k <= 100)%nat
        /\ x !! k = Some SPACE
        /\ forall j : nat, (k < j <= 100)%nat -> x !! j <> Some SPACE).
Proof.
  intros Hx. unfold lastIndexOf.
  assert (Z.min (Z.max 100 0) (length x - length [SPACE]) = 100) as ->.
  { unfold length in *. simpl List.length. lia. }
  destruct (lastIndexOf_scan_char SPACE x 0 100 (-1))
    as [[Hr Hnone]|[k [Hr [Hk [Hc Hnone]]]]].
  - left. split; [done|]. intros j Hj. apply Hnone. lia.
  - right. exists k. rewrite Hr. split; [lia|]. split; [lia|]. split; [done|].
    intros j Hj. apply Hnone; lia.
Qed.

End LastIndexOfFacts.

(** ** Claims about cleanSuggestion *)

Section CleanClaims.
Variable punct : N -> bool.
Implicit Types s r u x : jsstring.

Lemma capLength_length x : length (capLength x) <= length x.
Proof.
  unfold capLength. destruct (length x >? 100); [|lia].
  destruct (lastIndexOf x [SPACE] 100 >? 50); apply substring_prefix.
Qed.

Lemma cleanRest_length x : length (cleanRest punct x) <= length x.
Proof.
  unfold cleanRest. pose proof (firstLine_length x).
  destruct (isUnwantedSuggestion punct (firstLine x)).
  - pose proof (length_nonneg x). unfold length at 1. simpl. lia.
  - pose proof (capLength_length (firstLine x)). lia.
Qed.

Lemma trim_same_length s : length (trim s) = length s -> trim s = s.
Proof.
  destruct (trim_split s) as [w1 [w2 [Hs _]]]. intros Hlen.
  rewrite Hs in Hlen at 2. rewrite !length_app in Hlen.
  destruct w1 as [|? ?]; [|unfold length in Hlen; simpl in Hlen; lia].
  destruct w2 as [|? ?]; [|unfold length in Hlen; simpl in Hlen; lia].
  rewrite Hs at 2. by rewrite app_nil_r.
Qed.

(** A second echo makes the text strictly shorter. *)
Lemma afterEcho_shrinks r u :
  u <> [] -> startsWith r u = true -> length (afterEcho r u) < length r.
Proof.
  intros Hu Hr. pose proof (trim_length r) as Hle.
  destruct (startsWith (trim r) u) eqn:Ht.
  - apply startsWith_prefix in Ht as [r' Hr'].
    rewrite (afterEcho_strips _ _ _ Hr'). rewrite Hr', length_app in Hle.
    destruct u as [|c u]; [done|]. unfold length in *. simpl in *. lia.
  - rewrite afterEcho_keeps by done.
    destruct (Z.eq_dec (length (trim r)) (length r)) as [Heq|?]; [|lia].
    apply trim_same_length in Heq. congruence.
Qed.

(** A trimmed, wanted line within the cap that does not begin with the
    user text is returned as it is. *)
Lemma cleanSuggestion_fixed r u :
  headIsSpace r = false -> lastIsSpace r = false -> LF ∉ r ->
  isUnwantedSuggestion punct r = false -> length r <= 100 ->
  u = [] \/ startsWith r u = false ->
  cleanSuggestion punct r u = r.
Proof.
  intros Hhead Hlast Hline Hwanted Hlen Hu.
  assert (afterEcho r u = r) as Hecho.
  { destruct Hu as [->|Hu].
    - apply afterEcho_strips. by rewrite trim_fixed.
    - rewrite afterEcho_keeps; rewrite trim_fixed; done. }
  unfold cleanSuggestion, cleanRest. rewrite Hecho.
  rewrite firstLine_one_line, trimStart_fixed by done.
  rewrite Hwanted. by apply capLength_short.
Qed.

(** What cleanSuggestion returns for a single line within the cap. *)
Lemma cleanSuggestion_shape s u :
  LF ∉ s -> length s <= 100 ->
  cleanSuggestion punct s u = []
  \/ (headIsSpace (cleanSuggestion punct s u) = false
      /\ lastIsSpace (cleanSuggestion punct s u) = false
      /\ (LF ∉ cleanSuggestion punct s u)
      /\ isUnwantedSuggestion punct (cleanSuggestion punct s u) = false
      /\ length (cleanSuggestion punct s u) <= 100).
Proof.
  intros Hline Hlen.
  destruct (trim_split s) as [w1 [w2 [Hs _]]].
  destruct (afterEcho_suffix s u) as [p [Ht _]].
  destruct (trimStart_split (afterEcho s u)) as [w [Ha _]].
  assert (LF ∉ afterEcho s u) as Hline_a.
  { intros Hin. apply Hline. rewrite Hs, Ht.
    apply elem_of_app. right. apply elem_of_app. left.
    apply elem_of_app. by right. }
  assert (length (afterEcho s u) <= 100) as Hlen_a.
  { pose proof (trim_length s) as Hle. rewrite Ht, length_app in Hle.
    pose proof (length_nonneg p). lia. }
  unfold cleanSuggestion, cleanRest. rewrite firstLine_one_line by done.
  pose proof (trimStart_length (afterEcho s u)) as Hlen_r.
  destruct (isUnwantedSuggestion punct (trimStart (afterEcho s u))) eqn:Hwanted;
    [by left|right].
  rewrite capLength_short by lia.
  split; [apply trimStart_head|]. split; [|split; [|split; [done|lia]]].
  - assert (trimStart (afterEcho s u) <> []) as Hne.
    { intros Hnil. apply isUnwanted_length in Hwanted.
      rewrite Hnil in Hwanted. unfold length in Hwanted. simpl in Hwanted. lia. }
    pose proof (trim_last s) as Hlast. rewrite Ht, Ha in Hlast.
    rewrite !lastIsSpace_app in Hlast; [done|done|].
    by intros [_ ?]%app_eq_nil.
  - intros Hin. apply Hline_a. rewrite Ha. apply elem_of_app. by right.
Qed.

(** C2 (as amended): a candidate shorter than 2 code units is cleaned to
    the empty string whatever the user text is; a candidate made of white
    space and punctuation only is cleaned to the empty string for every
    user text that does not end in a high surrogate, so that removing
    the echo cannot cut a surrogate pair of the candidate in two. *)
Theorem clean_rejects_short_or_punctuation_only s u :
  length s < 2 \/ (onlySpaceOrPunct punct s = true /\ endsWithHigh u = false) ->
  cleanSuggestion punct s u = [].
Proof.
  intros Hs. unfold cleanSuggestion, cleanRest.
  enough (isUnwantedSuggestion punct (firstLine (afterEcho s u)) = true) as -> by done.
  destruct Hs as [Hshort|[Hall Hu]].
  - apply isUnwanted_short.
    pose proof (firstLine_length (afterEcho s u)).
    destruct (afterEcho_suffix s u) as [p [Ht _]].
    pose proof (trim_length s) as Hle. rewrite Ht, length_app in Hle.
    pose proof (length_nonneg p). lia.
  - apply isUnwanted_allSpaceOrPunct, allSpaceOrPunct_firstLine.
    apply allSpaceOrPunct_afterEcho; [done|].
    unfold onlySpaceOrPunct in Hall. by apply andb_true_iff in Hall as [_ ?].
Qed.

(** C3 (as amended): on a single line of at most 100 code units, cleaning
    twice gives what cleaning once gives exactly when the first result
    does not begin with a non-empty copy of the user text again. *)
Theorem clean_twice_is_clean_once_iff_no_second_echo s u :
  LF ∉ s -> length s <= 100 ->
  cleanSuggestion punct (cleanSuggestion punct s u) u = cleanSuggestion punct s u
  <-> (u = [] \/ startsWith (cleanSuggestion punct s u) u = false).
Proof.
  intros Hline Hlen. split.
  - intros Hidem. destruct u as [|c u]; [by left|right].
    destruct (startsWith (cleanSuggestion punct s (c :: u)) (c :: u)) eqn:Hecho; [|done].
    exfalso. apply afterEcho_shrinks in Hecho; [|done].
    pose proof (cleanRest_length (afterEcho (cleanSuggestion punct s (c :: u)) (c :: u))) as Hle.
    fold (cleanSuggestion punct (cleanSuggestion punct s (c :: u)) (c :: u)) in Hle.
    rewrite Hidem in Hle. lia.
  - intros Hu. destruct (cleanSuggestion_shape s u Hline Hlen)
      as [->|[Hhead [Hlast [Hline' [Hwanted Hlen']]]]].
    + apply cleanSuggestion_empty.
    + by apply cleanSuggestion_fixed.
Qed.

(** C4 (as amended): when the trimmed candidate is the user text followed
    by [r], the echo step leaves exactly [r], and cleanSuggestion goes on
    with [r]. *)
Theorem echo_stripped_from_trimmed_candidate s u r :
  trim s = u ++ r ->
  afterEcho s u = r /\ cleanSuggestion punct s u = cleanRest punct r.
Proof.
  intros Hs. unfold cleanSuggestion. by rewrite (afterEcho_strips s u r Hs).
Qed.

(** C5: the returned suggestion never exceeds 100 code units; and when
    the text [c] that reaches the cap is longer than 100, it is cut at the
    last space at an index up to 100 if that index is above 50, and at
    index 100 otherwise. *)
Theorem cap_cuts_at_last_space_or_at_100 s u :
  length (cleanSuggestion punct s u) <= 100
  /\ (isUnwantedSuggestion punct (firstLine (afterEcho s u)) = false ->
      100 < length (firstLine (afterEcho s u)) ->
      (exists k : nat,
          (50 < k <= 100)%nat
          /\ firstLine (afterEcho s u) !! k = Some SPACE
          /\ (forall j : nat, (k < j <= 100)%nat ->
                firstLine (afterEcho s u) !! j <> Some SPACE)
          /\ cleanSuggestion punct s u = take k (firstLine (afterEcho s u)))
      \/ ((forall j : nat, (50 < j <= 100)%nat ->
              firstLine (afterEcho s u) !! j <> Some SPACE)
          /\ cleanSuggestion punct s u = take 100 (firstLine (afterEcho s u)))).
Proof.
  unfold cleanSuggestion, cleanRest.
  generalize (firstLine (afterEcho s u)). intros c.
  assert (100 < length c ->
    (exists k : nat, (50 < k <= 100)%nat /\ c !! k = Some SPACE
        /\ (forall j : nat, (k < j <= 100)%nat -> c !! j <> Some SPACE)
        /\ capLength c = take k c)
    \/ ((forall j : nat, (50 < j <= 100)%nat -> c !! j <> Some SPACE)
        /\ capLength c = take 100 c)) as Hcap.
  { intros Hlong. unfold capLength.
    destruct (Z.gtb_spec (length c) 100) as [_|?]; [|lia].
    destruct (lastIndexOf_space_100 c Hlong)
      as [[-> Hnone]|[k [-> [Hk [Hc Hnone]]]]].
    - right. simpl. split; [|by apply substring_to].
      intros j Hj. apply Hnone. lia.
    - destruct (Z.gtb_spec (Z.of_nat k) 50) as [Hfar|Hnear].
      + left. exists k. split; [lia|]. split; [done|]. split; [done|].
        rewrite substring_to by lia. by rewrite Nat2Z.id.
      + right. split; [|by apply substring_to].
        intros j Hj. apply Hnone. lia. }
  split.
  - destruct (isUnwantedSuggestion punct c); [unfold length; simpl; lia|].
    destruct (Z.le_gt_cases (length c) 100) as [Hshort|Hlong].
    + by rewrite capLength_short.
    + destruct (Hcap Hlong) as [[k [Hk [_ [_ ->]]]]|[_ ->]];
        unfold length; rewrite length_take; lia.
  - intros -> Hlong. by apply Hcap.
Qed.

End CleanClaims.

(** ** Claims about the Mistral FIM transport *)

Section MistralClaims.
Context {env : Mistral.Env}.
Implicit Types (this : Mistral.MistralHandler) (prefix suffix : jsstring).

Lemma forwardContent_yields (events : gen Mistral.SseData) :
  yields (Mistral.forwardContent events) = omap fragmentOf (yields events).
Proof.
  induction events as [data rest IH| |e]; [|done..].
  simpl. unfold fragmentOf at 1.
  destruct (Mistral.choices data) as [[|choice cs]|]; simpl; [done| |done].
  destruct (Mistral.delta choice) as [d|]; simpl; [|done].
  destruct (Mistral.content d) as [[|c content]|]; simpl; [done| |done].
  by rewrite IH.
Qed.

Lemma forwardContent_ending (events : gen Mistral.SseData) :
  ending (Mistral.forwardContent events) = ending events.
Proof.
  induction events as [data rest IH| |e]; [|done..].
  simpl. by repeat case_match.
Qed.

Lemma accumulate_fold (chunks : gen jsstring) (result : jsstring) :
  Mistral.accumulate chunks result =
  match ending chunks with
  | Return _ => Return (result ++ mjoin (yields chunks))
  | Throw e => Throw e
  end.
Proof.
  revert result. induction chunks as [chunk rest IH| |e]; intros result; simpl.
  - rewrite IH. destruct (ending rest); [|done]. by rewrite app_assoc.
  - by rewrite app_nil_r.
  - done.
Qed.

(** streamFim sends at most one request, the one built by [fimRequest]. *)
Lemma streamFim_requests this prefix suffix (request : Mistral.FimRequest) :
  request ∈ (Mistral.streamFim this prefix suffix).2 ->
  exists endpoint, request = Mistral.fimRequest this endpoint prefix suffix.
Proof.
  unfold Mistral.streamFim.
  destruct (Mistral.URL_new _ _) as [endpoint|e]; simpl.
  - intros Hin. exists endpoint.
    destruct (Mistral.fetch _) as [response|e]; simpl in Hin.
    + destruct (negb (Mistral.ok response)); simpl in Hin;
        by apply list_elem_of_singleton in Hin.
    + by apply list_elem_of_singleton in Hin.
  - intros Hin. by apply elem_of_nil in Hin.
Qed.

(** What streamFim does once the URL is built and [fetch] has answered. *)
Lemma streamFim_answered this prefix suffix
    (endpoint : jsstring) (response : Mistral.Response) :
  Mistral.URL_new (lit "v1/fim/completions") (Mistral.baseUrl this) = Return endpoint ->
  Mistral.fetch (Mistral.fimRequest this endpoint prefix suffix) = Return response ->
  Mistral.streamFim this prefix suffix
  = (if bool_decide (200 <= Mistral.status response <= 299)
     then Mistral.forwardContent (Mistral.streamSse response)
     else Fail (Error (lit "FIM streaming failed: "
                       ++ Number_toString (Mistral.status response) ++ lit " "
                       ++ Mistral.statusText response ++ lit " - "
                       ++ Mistral.text response)),
     [Mistral.fimRequest this endpoint prefix suffix]).
Proof.
  intros Hurl Hfetch. unfold Mistral.streamFim. rewrite Hurl, Hfetch.
  unfold Mistral.ok. case_bool_decide as Hstatus.
  - destruct (Z.leb_spec 200 (Mistral.status response)); [|lia].
    by destruct (Z.leb_spec (Mistral.status response) 299); [|lia].
  - destruct (Z.leb_spec 200 (Mistral.status response)); [|done].
    by destruct (Z.leb_spec (Mistral.status response) 299); [lia|].
Qed.

(** C7: every request body that streamFim sends has temperature 0.2 and
    max_tokens the minimum of 256 and the maximum that getModel reports;
    without such a maximum (includeMaxTokens off, or none in the model
    table) max_tokens is 256. *)
Theorem fim_body_temperature_and_max_tokens this prefix suffix
    (request : Mistral.FimRequest) :
  request ∈ (Mistral.streamFim this prefix suffix).2 ->
  Mistral.temperature (Mistral.body request) = 0.2%Q
  /\ Mistral.max_tokens (Mistral.body request)
     = Z.min 256 (default 256 (Mistral.model_maxTokens (Mistral.getModel this)))
  /\ (Mistral.model_maxTokens (Mistral.getModel this) = None ->
      Mistral.max_tokens (Mistral.body request) = 256)
  /\ (Mistral.model_maxTokens (Mistral.getModel this) = None <->
      default false (Mistral.includeMaxTokens (Mistral.options this)) = false
      \/ Mistral.maxTokens (Mistral.info (Mistral.getModel this)) = None).
Proof.
  intros [endpoint ->]%streamFim_requests. simpl.
  split; [done|]. split; [done|]. split; [by intros ->|].
  destruct (default false _); split; auto. by intros [?|?].
Qed.

(** C8: when the endpoint answers with a status outside 200-299 the
    stream fails before any fragment, with an error whose message holds
    the status code and the body text; when it answers within 200-299 the
    fragments are, in order, the non-empty contents of the events, events
    without one being skipped, and the stream ends as the events end. *)
Theorem streamFim_fails_on_status_or_forwards_contents this prefix suffix
    (endpoint : jsstring) (response : Mistral.Response) :
  Mistral.URL_new (lit "v1/fim/completions") (Mistral.baseUrl this) = Return endpoint ->
  Mistral.fetch (Mistral.fimRequest this endpoint prefix suffix) = Return response ->
  (~ (200 <= Mistral.status response <= 299) ->
     (Mistral.streamFim this prefix suffix).1
     = Fail (Error (lit "FIM streaming failed: "
                    ++ Number_toString (Mistral.status response) ++ lit " "
                    ++ Mistral.statusText response ++ lit " - "
                    ++ Mistral.text response)))
  /\ (200 <= Mistral.status response <= 299 ->
     yields (Mistral.streamFim this prefix suffix).1
       = omap fragmentOf (yields (Mistral.streamSse response))
     /\ ending (Mistral.streamFim this prefix suffix).1
       = ending (Mistral.streamSse response)).
Proof.
  intros Hurl Hfetch. rewrite (streamFim_answered _ _ _ _ _ Hurl Hfetch). simpl.
  split; intros Hstatus.
  - by rewrite bool_decide_eq_false_2.
  - rewrite bool_decide_eq_true_2 by done.
    by rewrite forwardContent_yields, forwardContent_ending.
Qed.

(** C10: completeFim returns the in-order concatenation of the fragments
    of streamFim when that stream ends well, fails as the stream fails,
    and sends what streamFim sends. *)
Theorem completeFim_is_fold_of_streamFim this prefix suffix :
  (Mistral.completeFim this prefix suffix).1
    = foldFragments (Mistral.streamFim this prefix suffix).1
  /\ (Mistral.completeFim this prefix suffix).2
    = (Mistral.streamFim this prefix suffix).2.
Proof.
  unfold Mistral.completeFim, foldFragments.
  destruct (Mistral.streamFim this prefix suffix) as [chunks sent]. simpl.
  split; [|done]. by rewrite accumulate_fold.
Qed.

End MistralClaims.

(** ** Claims about the service *)

Section ChatClaims.
Context {G : Type} `{Chat.GhostModel G}.
Variable punct : N -> bool.
Variable clipboard : outcome jsstring.
Implicit Types (g : G) (userText : jsstring)
  (visibleCodeContext : option Chat.VisibleCodeContext).

Lemma getClipboardContext_run g :
  Chat.getClipboardContext clipboard g
  = (Return match clipboardFragment clipboard with
            | [_; text] => Some text
            | _ => None
            end, g, [Chat.CallReadClipboard]).
Proof.
  unfold Chat.getClipboardContext, Chat.try_catch, Chat.readText, clipboardFragment.
  unfold mbind, Chat.M_bind. destruct clipboard as [text|e]; [|done].
  case_bool_decide as Hrange.
  - destruct text as [|c text]; [unfold length in Hrange; simpl in Hrange; lia|].
    simpl truthy.
    destruct (Z.ltb_spec 5 (length (c :: text))); [|lia].
    by destruct (Z.ltb_spec (length (c :: text)) 500); [|lia].
  - destruct (truthy text); [|done].
    destruct (Z.ltb_spec 5 (length text)); [|done].
    destruct (Z.ltb_spec (length text) 500); [lia|done].
Qed.

Lemma buildPrefix_run userText visibleCodeContext g :
  Chat.buildPrefix clipboard userText visibleCodeContext g
  = (Return (contextBlob clipboard userText visibleCodeContext), g,
     [Chat.CallReadClipboard]).
Proof.
  unfold Chat.buildPrefix, mbind, Chat.M_bind. rewrite getClipboardContext_run.
  unfold contextBlob, clipboardFragment. destruct clipboard as [text|e].
  - case_bool_decide as Hrange.
    + destruct text as [|c text]; [unfold length in Hrange; simpl in Hrange; lia|].
      simpl. by rewrite <- app_assoc.
    + done.
  - done.
Qed.

Lemma appendChunks_ending (chunks : gen jsstring) (response : jsstring) :
  (Chat.appendChunks chunks response).1 = ending chunks.
Proof.
  revert response. induction chunks as [chunk rest IH| |e]; intros response; simpl;
    [apply IH|done..].
Qed.

Lemma appendChunks_response (chunks : gen jsstring) (response : jsstring) :
  ending chunks = Return tt ->
  (Chat.appendChunks chunks response).2 = response ++ mjoin (yields chunks).
Proof.
  revert response. induction chunks as [chunk rest IH| |e]; intros response Hend; simpl.
  - rewrite IH by done. by rewrite app_assoc.
  - by rewrite app_nil_r.
  - done.
Qed.

(** C6: buildPrefix never fails, whatever the clipboard read does; the
    blob holds the clipboard text, under its header and between the
    visible code and the user text, exactly when the text was read and has
    6 to 499 code units; a failed read only leaves that fragment out. *)
Theorem clipboard_in_blob_iff_length_6_to_499 userText visibleCodeContext g :
  Chat.buildPrefix clipboard userText visibleCodeContext g
  = (Return (join [LF] (Chat.visibleParts visibleCodeContext
                        ++ clipboardFragment clipboard
                        ++ [LF :: lit "// User's message:"; userText])),
     g, [Chat.CallReadClipboard])
  /\ (forall text, clipboard = Return text ->
        (clipboardFragment clipboard = [LF :: lit "// Clipboard content:"; text]
         <-> 6 <= length text <= 499)
        /\ (clipboardFragment clipboard = [] <-> ~ (6 <= length text <= 499)))
  /\ (forall e, clipboard = Throw e -> clipboardFragment clipboard = []).
Proof.
  split; [apply buildPrefix_run|]. split.
  - intros text ->. unfold clipboardFragment. by case_bool_decide; split; split.
  - by intros e ->.
Qed.

(** C9 (as amended): when the model is not loaded and the reload
    resolves to false, or when the model (loaded, or just reloaded) does
    not support FIM, getCompletion returns the empty suggestion; it has
    called nothing but the reload, so no FIM request was made, and nothing
    is thrown.  When the promise of the reload is rejected instead,
    getCompletion is rejected with the same error, again after the reload
    alone. *)
Theorem admission_failure_gives_empty_suggestion userText visibleCodeContext g :
  (forall g', Chat.loaded g = false -> Chat.reload g = (Return false, g') ->
     Chat.getCompletion punct clipboard userText visibleCodeContext g
     = (Return {| Chat.suggestion := [] |}, g', [Chat.CallReload]))
  /\ (Chat.loaded g = true -> Chat.supportsFim g = false ->
     Chat.getCompletion punct clipboard userText visibleCodeContext g
     = (Return {| Chat.suggestion := [] |}, g, []))
  /\ (forall g', Chat.loaded g = false -> Chat.reload g = (Return true, g') ->
     Chat.supportsFim g' = false ->
     Chat.getCompletion punct clipboard userText visibleCodeContext g
     = (Return {| Chat.suggestion := [] |}, g', [Chat.CallReload]))
  /\ (forall g' e, Chat.loaded g = false -> Chat.reload g = (Throw e, g') ->
     Chat.getCompletion punct clipboard userText visibleCodeContext g
     = (Throw e, g', [Chat.CallReload])).
Proof.
  unfold Chat.getCompletion, mbind, Chat.M_bind, Chat.read, Chat.initialize.
  split; [|split; [|split]].
  - intros g' -> Hreload. simpl. by rewrite Hreload.
  - intros -> Hfim. simpl. by rewrite Hfim.
  - intros g' -> Hreload Hfim. simpl. rewrite Hreload. simpl. by rewrite Hfim.
  - intros g' e -> Hreload. simpl. by rewrite Hreload.
Qed.

End ChatClaims.

(** ** The claims at concrete inputs *)

(** C2, counterexample: the candidate is two astral punctuation marks and
    the user text is the first half of the first; what is left after the
    echo begins with a lone low surrogate and is returned. *)
Lemma clean_returns_rest_of_split_pair :
  onlySpaceOrPunct unicodeP Ex.twoSeparators = true
  /\ cleanSuggestion unicodeP Ex.twoSeparators [55296%N] = [56576; 55296; 56576]%N
  /\ cleanSuggestion unicodeP Ex.twoSeparators [55296%N] <> [].
Proof. split; [reflexivity|]. split; [reflexivity|discriminate]. Qed.

(** C2, witness. *)
Lemma clean_rejects_short_or_punctuation_only_witness :
  (onlySpaceOrPunct unicodeP (lit " ?! ... ") = true
   /\ endsWithHigh (lit "hi") = false)
  /\ cleanSuggestion unicodeP (lit " ?! ... ") (lit "hi") = [].
Proof.
  assert (onlySpaceOrPunct unicodeP (lit " ?! ... ") = true
          /\ endsWithHigh (lit "hi") = false) as Hpre by (split; reflexivity).
  split; [exact Hpre|].
  apply (clean_rejects_short_or_punctuation_only unicodeP). right. exact Hpre.
Defined.

(** C3, counterexample: a trimmed, wanted single line that is cleaned to
    itself when there is no echo to remove, and a user text it begins
    with twice. *)
Lemma clean_twice_strips_second_echo :
  let s := lit "abab cd" in
  let u := lit "ab" in
  length s <= 100 /\ indexOf s [LF] = -1
  /\ isUnwantedSuggestion unicodeP s = false
  /\ cleanSuggestion unicodeP s [] = s
  /\ cleanSuggestion unicodeP s u = lit "ab cd"
  /\ cleanSuggestion unicodeP (cleanSuggestion unicodeP s u) u = lit "cd"
  /\ cleanSuggestion unicodeP (cleanSuggestion unicodeP s u) u
     <> cleanSuggestion unicodeP s u.
Proof. repeat split; try reflexivity; discriminate. Qed.

(** C3, witness. *)
Lemma clean_twice_is_clean_once_witness :
  ((LF ∉ lit "  hello world ") /\ length (lit "  hello world ") <= 100)
  /\ (cleanSuggestion unicodeP (cleanSuggestion unicodeP (lit "  hello world ") (lit "hello")) (lit "hello")
      = cleanSuggestion unicodeP (lit "  hello world ") (lit "hello")
      <-> (lit "hello" = [] \/
           startsWith (cleanSuggestion unicodeP (lit "  hello world ") (lit "hello"))
             (lit "hello") = false)).
Proof.
  assert (LF ∉ lit "  hello world ") as Hline.
  { apply (bool_decide_unpack _). vm_compute. exact I. }
  assert (length (lit "  hello world ") <= 100) as Hlen by (vm_compute; discriminate).
  split; [by split|].
  exact (clean_twice_is_clean_once_iff_no_second_echo unicodeP _ (lit "hello") Hline Hlen).
Defined.

(** C4, counterexample: the candidate begins with the user text, leading
    spaces included, yet nothing is removed, because the candidate is
    trimmed before the comparison. *)
Lemma echo_kept_when_user_text_starts_with_spaces :
  let s := lit "  hello world" in
  let u := lit "  hello" in
  s = u ++ lit " world"
  /\ afterEcho s u = lit "hello world"
  /\ afterEcho s u <> lit " world"
  /\ cleanSuggestion unicodeP s u = lit "hello world".
Proof. repeat split; try reflexivity; discriminate. Qed.

(** C4, witness. *)
Lemma echo_stripped_from_trimmed_candidate_witness :
  trim (lit "  hello world ") = lit "hello" ++ lit " world"
  /\ afterEcho (lit "  hello world ") (lit "hello") = lit " world"
  /\ cleanSuggestion unicodeP (lit "  hello world ") (lit "hello")
     = cleanRest unicodeP (lit " world").
Proof.
  split; [reflexivity|].
  exact (echo_stripped_from_trimmed_candidate unicodeP (lit "  hello world ")
           (lit "hello") (lit " world") eq_refl).
Defined.

(** C5, witness: the long line is cut at its last space, index 60. *)
Lemma cap_cuts_at_last_space_witness :
  isUnwantedSuggestion unicodeP (firstLine (afterEcho Ex.longLine [])) = false
  /\ 100 < length (firstLine (afterEcho Ex.longLine []))
  /\ cleanSuggestion unicodeP Ex.longLine [] = replicate 60 97%N
  /\ ((exists k : nat,
          (50 < k <= 100)%nat
          /\ firstLine (afterEcho Ex.longLine []) !! k = Some SPACE
          /\ (forall j : nat, (k < j <= 100)%nat ->
                firstLine (afterEcho Ex.longLine []) !! j <> Some SPACE)
          /\ cleanSuggestion unicodeP Ex.longLine [] = take k (firstLine (afterEcho Ex.longLine [])))
      \/ ((forall j : nat, (50 < j <= 100)%nat ->
              firstLine (afterEcho Ex.longLine []) !! j <> Some SPACE)
          /\ cleanSuggestion unicodeP Ex.longLine [] = take 100 (firstLine (afterEcho Ex.longLine [])))).
Proof.
  split; [reflexivity|]. split; [reflexivity|]. split; [reflexivity|].
  apply (proj2 (cap_cuts_at_last_space_or_at_100 unicodeP Ex.longLine []));
    reflexivity.
Defined.

(** C6, witness: a clipboard text of 14 code units is in the blob, one of
    5 is not, and a failed read leaves the blob as it is without one. *)
Lemma clipboard_in_blob_witness :
  let g := ExModel.ready in
  (Chat.buildPrefix (Return (lit "const answer;")) (lit "hi") None g).1.1
   = Return (LF :: lit "// Clipboard content:" ++ [LF] ++ lit "const answer;"
             ++ [LF; LF] ++ lit "// User's message:" ++ [LF] ++ lit "hi")
  /\ (Chat.buildPrefix (Return (lit "const")) (lit "hi") None g).1.1
     = Return (LF :: lit "// User's message:" ++ [LF] ++ lit "hi")
  /\ (Chat.buildPrefix (Throw Ex.networkDown) (lit "hi") None g).1.1
     = Return (LF :: lit "// User's message:" ++ [LF] ++ lit "hi").
Proof.
  intros g. split; [|split].
  - destruct (clipboard_in_blob_iff_length_6_to_499 (Return (lit "const answer;"))
                (lit "hi") None g) as [Hrun [Hin _]].
    destruct (Hin _ eq_refl) as [[_ Hfrag] _].
    rewrite Hrun, Hfrag; [reflexivity|]. vm_compute. split; discriminate.
  - destruct (clipboard_in_blob_iff_length_6_to_499 (Return (lit "const"))
                (lit "hi") None g) as [Hrun [Hin _]].
    destruct (Hin _ eq_refl) as [_ [_ Hfrag]].
    rewrite Hrun, Hfrag; [reflexivity|]. vm_compute. intros [Hlow _]. by apply Hlow.
  - destruct (clipboard_in_blob_iff_length_6_to_499 (Throw Ex.networkDown)
                (lit "hi") None g) as [Hrun [_ Hout]].
    by rewrite Hrun, (Hout _ eq_refl).
Defined.

(** C7, witness: a model whose table maximum, 128, is below the cap. *)
Lemma fim_body_witness :
  let env := Ex.env (Return Ex.answer200) Ex.events in
  let request := Mistral.fimRequest Ex.tiny Ex.endpoint (lit "a") (lit "b") in
  request ∈ (Mistral.streamFim Ex.tiny (lit "a") (lit "b")).2
  /\ Mistral.temperature (Mistral.body request) = 0.2%Q
  /\ Mistral.max_tokens (Mistral.body request) = 128.
Proof.
  intros env request.
  assert (request ∈ (Mistral.streamFim Ex.tiny (lit "a") (lit "b")).2) as Hin
    by apply list_elem_of_here.
  split; [exact Hin|].
  destruct (fim_body_temperature_and_max_tokens (env := env) Ex.tiny (lit "a") (lit "b")
              request Hin) as [Htemp [Hmax _]].
  split; [exact Htemp|]. rewrite Hmax. reflexivity.
Defined.

(** C8, witness: a status 500, then a status 200 with four events. *)
Lemma streamFim_witness :
  (let env := Ex.env (Return Ex.answer500) Ex.events in
   (Mistral.streamFim Ex.codestral (lit "a") []).1
   = Fail (Error (lit "FIM streaming failed: 500 Internal Server Error - oops")))
  /\ (let env := Ex.env (Return Ex.answer200) Ex.events in
      yields (Mistral.streamFim Ex.codestral (lit "a") []).1 = [lit "foo"; lit " bar"]
      /\ ending (Mistral.streamFim Ex.codestral (lit "a") []).1 = Return tt).
Proof.
  split; intros env.
  - destruct (streamFim_fails_on_status_or_forwards_contents (env := env) Ex.codestral (lit "a") []
                Ex.endpoint Ex.answer500 eq_refl eq_refl) as [Hfail _].
    rewrite Hfail; [reflexivity|]. simpl. lia.
  - destruct (streamFim_fails_on_status_or_forwards_contents (env := env) Ex.codestral (lit "a") []
                Ex.endpoint Ex.answer200 eq_refl eq_refl) as [_ Hgood].
    destruct Hgood as [Hyields Hend]; [simpl; lia|].
    rewrite Hyields, Hend. split; reflexivity.
Defined.

(** C9, counterexample: the model is not loaded and the reload fails by
    rejecting; getCompletion does not return the empty suggestion, its
    promise is rejected with the error of the reload. *)
Lemma getCompletion_rejects_when_reload_rejects :
  let g := ExModel.unloaded (Throw ExModel.settingsUnreadable) in
  let result := Chat.getCompletion unicodeP (Return []) (lit "hello ") None g in
  Chat.loaded g = false
  /\ (Chat.reload g).1 = Throw ExModel.settingsUnreadable
  /\ result.1.1 = Throw ExModel.settingsUnreadable
  /\ result.1.1 <> Return {| Chat.suggestion := [] |}.
Proof. repeat split; try reflexivity; discriminate. Qed.

(** C9, witness: a reload that resolves to false; a loaded model without
    FIM; a reload that finds a model without FIM; a reload that rejects. *)
Lemma admission_failure_witness :
  let run g := Chat.getCompletion unicodeP (Return []) (lit "hello ") None g in
  run (ExModel.unloaded (Return false))
  = (Return {| Chat.suggestion := [] |}, ExModel.unloaded (Return false),
     [Chat.CallReload])
  /\ run (ExModel.withoutFim true)
     = (Return {| Chat.suggestion := [] |}, ExModel.withoutFim true, [])
  /\ run (ExModel.withoutFim false)
     = (Return {| Chat.suggestion := [] |}, ExModel.withoutFim true,
        [Chat.CallReload])
  /\ run (ExModel.unloaded (Throw ExModel.settingsUnreadable))
     = (Throw ExModel.settingsUnreadable,
        ExModel.unloaded (Throw ExModel.settingsUnreadable), [Chat.CallReload]).
Proof.
  intros run. split; [|split; [|split]].
  - exact (proj1 (admission_failure_gives_empty_suggestion unicodeP (Return [])
             (lit "hello ") None (ExModel.unloaded (Return false))) _ eq_refl eq_refl).
  - exact (proj1 (proj2 (admission_failure_gives_empty_suggestion unicodeP (Return [])
             (lit "hello ") None (ExModel.withoutFim true))) eq_refl eq_refl).
  - exact (proj1 (proj2 (proj2 (admission_failure_gives_empty_suggestion unicodeP
             (Return []) (lit "hello ") None (ExModel.withoutFim false))))
             _ eq_refl eq_refl eq_refl).
  - exact (proj2 (proj2 (proj2 (admission_failure_gives_empty_suggestion unicodeP
             (Return []) (lit "hello ") None
             (ExModel.unloaded (Throw ExModel.settingsUnreadable)))))
             _ _ eq_refl eq_refl).
Defined.

(** ** Runs of the transport *)

(** completeFim on the stream "foo", an empty content, no content, " bar". *)
Example completeFim_foo_bar :
  let env := Ex.env (Return Ex.answer200) Ex.events in
  (Mistral.completeFim Ex.codestral (lit "a") []).1 = Return (lit "foo bar").
Proof. reflexivity. Qed.

(** The constructor refuses a missing key and fills in the default model. *)
Example constructor_requires_key :
  let env := Ex.env (Return Ex.answer200) Ex.events in
  Mistral.new_MistralHandler
    {| Mistral.mistralApiKey := None; Mistral.apiModelId := None;
       Mistral.mistralCodestralUrl := None; Mistral.includeMaxTokens := None;
       Mistral.modelTemperature := None |}
  = Throw (Error (lit "Mistral API key is required")).
Proof. reflexivity. Qed.

(** * Further properties *)

(** ** More about cleanSuggestion *)

Section CleanMore.
Variable punct : N -> bool.
Implicit Types s r u x p w : jsstring.

Lemma startsWith_take x p (n : nat) :
  (List.length p <= n)%nat -> startsWith (take n x) p = startsWith x p.
Proof.
  revert x n. induction p as [|c p IH]; intros x n Hn; [done|].
  destruct n as [|n]; [simpl in Hn; lia|].
  destruct x as [|d x]; [done|]. simpl. rewrite IH; [done|]. simpl in Hn. lia.
Qed.

(** What the length cap leaves: the text itself, or its first [n] code
    units for some [n] from 51 to 100. *)
Lemma capLength_take x :
  capLength x = x /\ length x <= 100
  \/ exists n : nat, (51 <= n <= 100)%nat /\ 100 < length x /\ capLength x = take n x.
Proof.
  destruct (Z.le_gt_cases (length x) 100) as [Hshort|Hlong].
  - left. by rewrite capLength_short.
  - right. unfold capLength.
    destruct (Z.gtb_spec (length x) 100) as [_|?]; [|lia].
    destruct (lastIndexOf_space_100 x Hlong) as [[-> _]|[k [-> [Hk _]]]].
    + exists 100%nat. simpl. split; [lia|]. split; [done|]. by apply substring_to.
    + destruct (Z.gtb_spec (Z.of_nat k) 50) as [Hfar|Hnear].
      * exists k. split; [lia|]. split; [done|].
        rewrite substring_to by lia. by rewrite Nat2Z.id.
      * exists 100%nat. split; [lia|]. split; [done|]. by apply substring_to.
Qed.

(** What cleanSuggestion returns when it returns something. *)
Lemma cleanSuggestion_result s u :
  cleanSuggestion punct s u <> [] ->
  2 <= length (cleanSuggestion punct s u) <= 100
  /\ (LF ∉ cleanSuggestion punct s u)
  /\ headIsSpace (cleanSuggestion punct s u) = false
  /\ startsWith (cleanSuggestion punct s u) (lit "//") = false
  /\ startsWith (cleanSuggestion punct s u) (lit "/*") = false
  /\ startsWith (cleanSuggestion punct s u) (lit "*") = false
  /\ (startsWith (cleanSuggestion punct s u) (lit "#") = true ->
      startsWith (cleanSuggestion punct s u) (lit "# ") = true).
Proof.
  unfold cleanSuggestion, cleanRest.
  pose proof (firstLine_head (afterEcho s u)) as Hhead.
  destruct (firstLine_split (afterEcho s u)) as [a [b [_ [Hfirst [Hline _]]]]].
  assert (LF ∉ firstLine (afterEcho s u)) as Hline'.
  { rewrite Hfirst. destruct (trimStart_split a) as [w [Ha _]].
    intros Hin. apply Hline. rewrite Ha. apply elem_of_app. by right. }
  clear a b Hfirst Hline. revert Hhead Hline'.
  generalize (firstLine (afterEcho s u)). intros c Hhead Hline.
  destruct (isUnwantedSuggestion punct c) eqn:Hwanted; [done|]. intros _.
  pose proof (isUnwanted_length punct c Hwanted) as Hlen.
  unfold isUnwantedSuggestion in Hwanted.
  destruct (startsWith c (lit "//")) eqn:H1; [done|].
  destruct (startsWith c (lit "/*")) eqn:H2; [done|].
  destruct (startsWith c (lit "*")) eqn:H3; [done|].
  assert (startsWith c (lit "#") = true -> startsWith c (lit "# ") = true) as H4.
  { intros Hhash. rewrite Hhash in Hwanted.
    destruct (startsWith c (lit "# ")); [done|]. by simpl in Hwanted. }
  clear Hwanted.
  destruct (capLength_take c) as [[-> Hshort]|[n [Hn [Hlong ->]]]]; [done|].
  rewrite !startsWith_take by (simpl; lia).
  split; [unfold length in *; rewrite length_take; lia|].
  split; [intros Hin; apply Hline; rewrite <- (take_drop n c);
          apply elem_of_app; by left|].
  split; [|done].
  destruct c as [|d c]; [done|]. by destruct n as [|n]; [lia|].
Qed.

(** X1: what cleanSuggestion returns is a contiguous part of the
    candidate; it never holds text the model did not send. *)
Theorem cleanSuggestion_is_part_of_candidate s u :
  exists before after, s = before ++ cleanSuggestion punct s u ++ after.
Proof.
  destruct (trim_split s) as [w1 [w2 [Hs _]]].
  destruct (afterEcho_suffix s u) as [p [Ht _]].
  destruct (firstLine_split (afterEcho s u)) as [a [b [Ha [Hfirst _]]]].
  destruct (trimStart_split a) as [w [Hw _]].
  unfold cleanSuggestion, cleanRest.
  destruct (isUnwantedSuggestion punct (firstLine (afterEcho s u))).
  { exists s, []. by rewrite !app_nil_r. }
  assert (exists rest, firstLine (afterEcho s u)
                       = capLength (firstLine (afterEcho s u)) ++ rest) as [rest Hcap].
  { destruct (capLength_take (firstLine (afterEcho s u))) as [[-> _]|[n [_ [_ ->]]]].
    - exists []. by rewrite app_nil_r.
    - exists (drop n (firstLine (afterEcho s u))). by rewrite take_drop. }
  exists (w1 ++ p ++ w), (rest ++ b ++ w2).
  set (t := trim s) in *. set (e := afterEcho s u) in *.
  set (c := firstLine e) in *. set (a' := trimStart a) in *.
  clearbody t e c a'. subst s t e a a'.
  rewrite Hcap at 1. by rewrite <- !app_assoc.
Qed.

(** X2: a suggestion that is not empty has 2 to 100 code units, is one
    line, does not begin with white space, with a comment marker, or with
    a number sign that no space follows. *)
Theorem nonempty_suggestion_is_short_line_without_comment s u :
  cleanSuggestion punct s u <> [] ->
  2 <= length (cleanSuggestion punct s u) <= 100
  /\ (LF ∉ cleanSuggestion punct s u)
  /\ headIsSpace (cleanSuggestion punct s u) = false
  /\ startsWith (cleanSuggestion punct s u) (lit "//") = false
  /\ startsWith (cleanSuggestion punct s u) (lit "/*") = false
  /\ startsWith (cleanSuggestion punct s u) (lit "*") = false
  /\ (startsWith (cleanSuggestion punct s u) (lit "#") = true ->
      startsWith (cleanSuggestion punct s u) (lit "# ") = true).
Proof. apply cleanSuggestion_result. Qed.

Lemma trimStart_app s r :
  trimStart (s ++ r) = if trimStart s is [] then trimStart r else trimStart s ++ r.
Proof.
  induction s as [|c s IH]; simpl.
  - by destruct (trimStart r).
  - by destruct (isWhiteSpace c).
Qed.

Lemma trimStart_spaces w : forallb isWhiteSpace w = true -> trimStart w = [].
Proof.
  induction w as [|c w IH]; simpl; [done|].
  intros [-> Hw]%andb_true_iff. by apply IH.
Qed.

Lemma trimEnd_app_spaces s w :
  forallb isWhiteSpace w = true -> trimEnd (s ++ w) = trimEnd s.
Proof.
  intros Hw. unfold trimEnd. rewrite reverse_app, trimStart_app.
  by rewrite trimStart_spaces by (by rewrite forallb_reverse).
Qed.

Lemma trim_padding w1 s w2 :
  forallb isWhiteSpace w1 = true -> forallb isWhiteSpace w2 = true ->
  trim (w1 ++ s ++ w2) = trim s.
Proof.
  intros Hw1 Hw2. unfold trim.
  rewrite trimStart_app, (trimStart_spaces w1 Hw1).
  rewrite trimStart_app. destruct (trimStart s) as [|c t] eqn:Hs.
  - by rewrite trimStart_spaces.
  - by rewrite trimEnd_app_spaces.
Qed.

(** X3: white space around the candidate makes no difference. *)
Theorem cleanSuggestion_ignores_surrounding_space w1 s w2 u :
  forallb isWhiteSpace w1 = true -> forallb isWhiteSpace w2 = true ->
  cleanSuggestion punct (w1 ++ s ++ w2) u = cleanSuggestion punct s u.
Proof.
  intros Hw1 Hw2. unfold cleanSuggestion, afterEcho.
  by rewrite trim_padding.
Qed.

End CleanMore.

(** ** More about the context blob *)

Section BlobMore.
Implicit Types (s p x : jsstring) (parts : list jsstring).

Lemma join_snoc (sep : jsstring) parts x :
  join sep (parts ++ [x])
  = match parts with [] => x | _ :: _ => join sep parts ++ sep ++ x end.
Proof.
  induction parts as [|y parts IH]; [done|].
  destruct parts as [|z parts]; [done|].
  change (join sep ((y :: z :: parts) ++ [x]))
    with (y ++ sep ++ join sep ((z :: parts) ++ [x])).
  rewrite IH.
  change (join sep (y :: z :: parts)) with (y ++ sep ++ join sep (z :: parts)).
  by rewrite <- !app_assoc.
Qed.

Lemma join_snoc_nonempty (sep : jsstring) parts x :
  parts <> [] -> join sep (parts ++ [x]) = join sep parts ++ sep ++ x.
Proof. intros Hne. rewrite join_snoc. by destruct parts. Qed.

Lemma split_nonempty (sep : N) s : split sep s <> [].
Proof.
  destruct s as [|c s]; simpl; [done|].
  destruct (c =? sep)%N; [done|]. by destruct (split sep s).
Qed.

Lemma split_no_separator (sep : N) s : Forall (fun p => sep ∉ p) (split sep s).
Proof.
  induction s as [|c s IH]; simpl.
  - constructor; [apply not_elem_of_nil|constructor].
  - destruct (N.eqb_spec c sep) as [->|Hc].
    + constructor; [apply not_elem_of_nil|done].
    + destruct (split sep s) as [|p ps]; [|inversion IH; subst].
      * constructor; [|constructor]. intros Hin.
        apply list_elem_of_singleton in Hin. congruence.
      * constructor; [|done]. intros [?|?]%elem_of_cons; [congruence|done].
Qed.

(** Joining what [split] gives, with the separator, gives the string back. *)
Lemma join_split (sep : N) s : join [sep] (split sep s) = s.
Proof.
  induction s as [|c s IH]; simpl; [done|].
  pose proof (split_nonempty sep s) as Hne.
  destruct (N.eqb_spec c sep) as [->|Hc].
  - destruct (split sep s) as [|p ps]; [done|]. simpl in *. by rewrite IH.
  - destruct (split sep s) as [|p ps]; [done|].
    destruct ps as [|q ps]; simpl in *; by rewrite <- IH.
Qed.

(** The last piece of a path has no slash, and what comes before it is
    empty or ends with a slash. *)
Lemma split_last_piece (sep : N) s :
  exists dir name,
    s = dir ++ name /\ (sep ∉ name) /\ (dir = [] \/ last dir = Some sep)
    /\ last (split sep s) = Some name.
Proof.
  pose proof (join_split sep s) as Hjoin.
  pose proof (split_no_separator sep s) as Hno.
  destruct (last (split sep s)) as [p|] eqn:Hlast;
    [|apply last_None in Hlast; by apply split_nonempty in Hlast].
  pose proof Hlast as [l Hsplit]%last_Some. rewrite Hsplit in Hjoin, Hno.
  rewrite join_snoc in Hjoin. apply Forall_app in Hno as [_ Hno].
  inversion Hno as [|? ? Hp _]; subst.
  destruct l as [|q l].
  - exists [], p. auto.
  - exists (join [sep] (q :: l) ++ [sep]), p.
    split; [by rewrite <- app_assoc|]. split; [done|]. split; [|done].
    right. by rewrite last_snoc.
Qed.

Context {G : Type} `{Chat.GhostModel G}.
Variable clipboard : outcome jsstring.

(** X4: whatever the editors show and the clipboard holds, the blob ends
    with the label of the user's message, a line feed and the user text
    itself; buildPrefix never fails and reads the clipboard once. *)
Theorem blob_ends_with_user_text (userText : jsstring)
    (visibleCodeContext : option Chat.VisibleCodeContext) (g : G) :
  exists before,
    Chat.buildPrefix clipboard userText visibleCodeContext g
    = (Return (before ++ (LF :: lit "// User's message:") ++ [LF] ++ userText),
       g, [Chat.CallReadClipboard]).
Proof.
  rewrite buildPrefix_run. unfold contextBlob.
  generalize (Chat.visibleParts visibleCodeContext) (clipboardFragment clipboard).
  intros visible fragment.
  change [LF :: lit "// User's message:"; userText]
    with ([LF :: lit "// User's message:"] ++ [userText]).
  rewrite !app_assoc, join_snoc_nonempty by (by destruct visible, fragment).
  rewrite join_snoc. destruct (visible ++ fragment) as [|z parts].
  - by exists [].
  - exists (join [LF] (z :: parts) ++ [LF]). by rewrite <- !app_assoc.
Qed.

(** X5: the file line of an editor shows the part of its path after the
    last slash; a path that ends with a slash (or is empty) is shown
    whole. *)
Theorem editor_line_shows_base_name (editor : Chat.VisibleEditorInfo) :
  exists dir name,
    Chat.filePath editor = dir ++ name
    /\ (47%N ∉ name) /\ (dir = [] \/ last dir = Some 47%N)
    /\ head (Chat.editorParts editor)
       = Some (LF :: lit "// File: "
               ++ (if name is [] then Chat.filePath editor else name)
               ++ lit " (" ++ Chat.languageId editor ++ lit ")").
Proof.
  destruct (split_last_piece 47 (Chat.filePath editor))
    as [dir [name [Hpath [Hname [Hdir Hlast]]]]].
  exists dir, name. split; [done|]. split; [done|]. split; [done|].
  unfold Chat.editorParts. rewrite Hlast. simpl. by destruct name.
Qed.

End BlobMore.

(** ** More about getCompletion *)

Section ServiceMore.
Context {G : Type} `{Chat.GhostModel G}.
Variable punct : N -> bool.
Variable clipboard : outcome jsstring.
Implicit Types (g : G) (userText : jsstring)
  (visibleCodeContext : option Chat.VisibleCodeContext).

(** The run of getCompletion from the check of FIM support on, for a
    model that supports it. *)
Lemma awaitFimResponse_run (prefix : jsstring) g
    (chunks : gen jsstring) (g' : G) (below : list Chat.call) :
  Chat.generateFimResponse g prefix [] = (chunks, g', below) ->
  Chat.awaitFimResponse prefix [] [] g
  = (match ending chunks with
     | Return _ => Return (mjoin (yields chunks))
     | Throw e => Throw e
     end, g', Chat.CallGenerateFim prefix [] :: below).
Proof.
  intros Hgen. unfold Chat.awaitFimResponse. rewrite Hgen.
  pose proof (appendChunks_ending chunks []) as Hend.
  pose proof (appendChunks_response chunks []) as Hresp.
  destruct (Chat.appendChunks chunks []) as [[[]|e] response]; simpl in *.
  - rewrite <- Hend. by rewrite Hresp.
  - by rewrite <- Hend.
Qed.

(** X6: when isFimAvailable answers true, getCompletion does not reload;
    it reads the clipboard, asks the model once, with the context blob as
    prefix and an empty suffix, and returns the cleaned concatenation of
    the chunks, or fails as the model's promise fails. *)
Theorem available_model_is_asked_once userText visibleCodeContext g
    (chunks : gen jsstring) (g' : G) (below : list Chat.call) :
  Chat.isFimAvailable g = true ->
  Chat.generateFimResponse g (contextBlob clipboard userText visibleCodeContext) []
    = (chunks, g', below) ->
  Chat.getCompletion punct clipboard userText visibleCodeContext g
  = (match ending chunks with
     | Return _ =>
         Return {| Chat.suggestion :=
                     cleanSuggestion punct (mjoin (yields chunks)) userText |}
     | Throw e => Throw e
     end, g',
     Chat.CallReadClipboard
     :: Chat.CallGenerateFim (contextBlob clipboard userText visibleCodeContext) []
     :: below).
Proof.
  unfold Chat.isFimAvailable. intros [Hloaded Hfim]%andb_true_iff Hgen.
  unfold Chat.getCompletion, mbind, Chat.M_bind, Chat.read.
  rewrite Hloaded. simpl. rewrite Hfim. simpl. rewrite buildPrefix_run.
  rewrite (awaitFimResponse_run _ _ _ _ _ Hgen).
  destruct (ending chunks); simpl; by rewrite ?app_nil_r.
Qed.

(** X7: a model that is not loaded is reloaded first; when the reload
    answers true and the reloaded model supports FIM, getCompletion goes on
    with the reloaded model as it does with a loaded one. *)
Theorem reloaded_model_is_asked_once userText visibleCodeContext g
    (g1 : G) (chunks : gen jsstring) (g' : G) (below : list Chat.call) :
  Chat.loaded g = false ->
  Chat.reload g = (Return true, g1) ->
  Chat.supportsFim g1 = true ->
  Chat.generateFimResponse g1 (contextBlob clipboard userText visibleCodeContext) []
    = (chunks, g', below) ->
  Chat.getCompletion punct clipboard userText visibleCodeContext g
  = (match ending chunks with
     | Return _ =>
         Return {| Chat.suggestion :=
                     cleanSuggestion punct (mjoin (yields chunks)) userText |}
     | Throw e => Throw e
     end, g',
     Chat.CallReload :: Chat.CallReadClipboard
     :: Chat.CallGenerateFim (contextBlob clipboard userText visibleCodeContext) []
     :: below).
Proof.
  intros Hloaded Hreload Hfim Hgen.
  unfold Chat.getCompletion, mbind, Chat.M_bind, Chat.read, Chat.initialize.
  rewrite Hloaded. simpl. rewrite Hreload. simpl. rewrite Hfim. simpl.
  rewrite buildPrefix_run.
  rewrite (awaitFimResponse_run _ _ _ _ _ Hgen).
  destruct (ending chunks); simpl; by rewrite ?app_nil_r.
Qed.

(** X8: a reload whose promise is rejected rejects getCompletion with the
    same error, before the clipboard is read or the model is asked. *)
Theorem reload_rejection_propagates userText visibleCodeContext g
    (g1 : G) (e : exn) :
  Chat.loaded g = false ->
  Chat.reload g = (Throw e, g1) ->
  Chat.getCompletion punct clipboard userText visibleCodeContext g
  = (Throw e, g1, [Chat.CallReload]).
Proof.
  intros Hloaded Hreload.
  unfold Chat.getCompletion, mbind, Chat.M_bind, Chat.read, Chat.initialize.
  rewrite Hloaded. simpl. by rewrite Hreload.
Qed.

(** The part of a run after the model is known to be loaded. *)
Ltac gate :=
  match goal with
  | |- context [Chat.supportsFim ?g0] => destruct (Chat.supportsFim g0)
  end; simpl;
  [ rewrite buildPrefix_run;
    let Hgen := fresh "Hgen" in
    match goal with
    | |- context [Chat.awaitFimResponse ?p _ _ ?g0] =>
        destruct (Chat.generateFimResponse g0 p []) as [[? ?] ?] eqn:Hgen
    end;
    rewrite (awaitFimResponse_run _ _ _ _ _ Hgen);
    match goal with
    | |- context [ending ?chunks] => destruct (ending chunks)
    end; simpl; rewrite ?app_nil_r; intros [= <- <- <-];
    eexists; (split; [reflexivity|]); right; (split; [by eexists|]);
    [ intros ? [= <-]; by eexists | by intros ? ]
  | intros [= <- <- <-]; exists []; (split; [done|]); left; (split; [done|]);
    by intros ? [= <-] ].

(** Every run of getCompletion: the calls it makes and what it returns. *)
Lemma getCompletion_runs userText visibleCodeContext g
    (r : outcome Chat.Completion) (g' : G) (log : list Chat.call) :
  Chat.getCompletion punct clipboard userText visibleCodeContext g = (r, g', log) ->
  exists post,
    log = (if Chat.loaded g then [] else [Chat.CallReload]) ++ post
    /\ ((post = []
         /\ forall c, r = Return c -> Chat.suggestion c = [])
        \/ (exists below,
              post = Chat.CallReadClipboard
                     :: Chat.CallGenerateFim
                          (contextBlob clipboard userText visibleCodeContext) []
                     :: below)
           /\ forall c, r = Return c ->
                exists response,
                  Chat.suggestion c = cleanSuggestion punct response userText).
Proof.
  unfold Chat.getCompletion, mbind, Chat.M_bind, mret, Chat.M_ret, Chat.read,
    Chat.initialize.
  destruct (Chat.loaded g); simpl;
    [|destruct (Chat.reload g) as [[[|]|e] g1]; simpl]; try gate.
  - intros [= <- <- <-]. exists []. split; [done|]. left. split; [done|].
    by intros c [= <-].
  - intros [= <- <- <-]. exists []. split; [done|]. left. by split.
Qed.

(** X9: the suggestion getCompletion returns, with any model and any
    clipboard, is empty or a single line of 2 to 100 code units that does
    not begin with white space, a comment marker, or a number sign that
    no space follows. *)
Theorem returned_suggestion_is_empty_or_short_line userText visibleCodeContext g
    (c : Chat.Completion) (g' : G) (log : list Chat.call) :
  Chat.getCompletion punct clipboard userText visibleCodeContext g
    = (Return c, g', log) ->
  Chat.suggestion c = []
  \/ (2 <= length (Chat.suggestion c) <= 100
      /\ (LF ∉ Chat.suggestion c)
      /\ headIsSpace (Chat.suggestion c) = false
      /\ startsWith (Chat.suggestion c) (lit "//") = false
      /\ startsWith (Chat.suggestion c) (lit "/*") = false
      /\ startsWith (Chat.suggestion c) (lit "*") = false
      /\ (startsWith (Chat.suggestion c) (lit "#") = true ->
          startsWith (Chat.suggestion c) (lit "# ") = true)).
Proof.
  intros [post [_ [[_ Hempty]|[_ Hclean]]]]%getCompletion_runs.
  - left. by apply Hempty.
  - destruct (Hclean c eq_refl) as [response Hc].
    destruct (decide (Chat.suggestion c = [])) as [?|Hne]; [by left|right].
    rewrite Hc in *. by apply cleanSuggestion_result.
Qed.


End ServiceMore.

(** ** More about the Mistral FIM transport *)

Section MistralMore.
Context {env : Mistral.Env}.
Implicit Types (this : Mistral.MistralHandler) (prefix suffix : jsstring).


Ltac distinct_literals :=
  let Heq := fresh in intros Heq; vm_compute in Heq; discriminate Heq.

(** X12: every request of a handler with a key carries the key as a
    bearer token and asks for and sends JSON, whatever DEFAULT_HEADERS
    says for these three names; every other header is the default one. *)
Theorem fim_request_headers this prefix suffix (key : jsstring)
    (request : Mistral.FimRequest) :
  Mistral.mistralApiKey (Mistral.options this) = Some key ->
  request ∈ (Mistral.streamFim this prefix suffix).2 ->
  Mistral.headers request !! lit "Authorization" = Some (lit "Bearer " ++ key)
  /\ Mistral.headers request !! lit "Accept" = Some (lit "application/json")
  /\ Mistral.headers request !! lit "Content-Type" = Some (lit "application/json")
  /\ forall name : jsstring,
       name <> lit "Authorization" -> name <> lit "Accept" ->
       name <> lit "Content-Type" ->
       Mistral.headers request !! name = Mistral.DEFAULT_HEADERS !! name.
Proof.
  intros Hkey [endpoint ->]%streamFim_requests. simpl. rewrite Hkey. simpl.
  split; [by rewrite lookup_insert_eq|].
  split; [rewrite lookup_insert_ne by distinct_literals; by rewrite lookup_insert_eq|].
  split.
  - rewrite !lookup_insert_ne by distinct_literals. by rewrite lookup_insert_eq.
  - intros name H1 H2 H3. by rewrite !lookup_insert_ne.
Qed.

(** X13: every request is a POST of a streaming body with the model id,
    the prefix as prompt and the suffix, to the URL made of
    "v1/fim/completions" and of a base that is api.mistral.ai for a model
    without FIM support, and otherwise the configured codestral URL, or
    codestral.mistral.ai when none or an empty one is configured. *)
Theorem fim_request_target_and_body this prefix suffix
    (request : Mistral.FimRequest) :
  request ∈ (Mistral.streamFim this prefix suffix).2 ->
  Mistral.method request = lit "POST"
  /\ Mistral.model (Mistral.body request) = Mistral.id (Mistral.getModel this)
  /\ Mistral.prompt (Mistral.body request) = prefix
  /\ Mistral.suffix (Mistral.body request) = suffix
  /\ Mistral.stream (Mistral.body request) = true
  /\ Mistral.URL_new (lit "v1/fim/completions")
       (if Mistral.supportsFim this
        then match Mistral.mistralCodestralUrl (Mistral.options this) with
             | Some ((_ :: _) as url) => url
             | _ => lit "https://codestral.mistral.ai"
             end
        else lit "https://api.mistral.ai")
     = Return (Mistral.endpoint request).
Proof.
  unfold Mistral.streamFim.
  assert (Mistral.baseUrl this
          = if Mistral.supportsFim this
            then match Mistral.mistralCodestralUrl (Mistral.options this) with
                 | Some ((_ :: _) as url) => url
                 | _ => lit "https://codestral.mistral.ai"
                 end
            else lit "https://api.mistral.ai") as <-.
  { unfold Mistral.baseUrl, Mistral.supportsFim, Mistral.getModel. cbn [Mistral.id].
    match goal with |- context [startsWith ?a ?b] => destruct (startsWith a b) end;
      [|done].
    by destruct (Mistral.mistralCodestralUrl (Mistral.options this)) as [[|c url]|]. }
  destruct (Mistral.URL_new _ _) as [endpoint|e]; simpl;
    [|by intros ?%elem_of_nil].
  assert (request ∈ [Mistral.fimRequest this endpoint prefix suffix]
          -> request = Mistral.fimRequest this endpoint prefix suffix) as Hone
    by apply list_elem_of_singleton.
  destruct (Mistral.fetch _) as [response|e]; simpl;
    [destruct (negb (Mistral.ok response)); simpl|]; by intros ->%Hone.
Qed.

(** X14: streamFim never sends more than one request.  When the URL
    cannot be built it sends none and the stream fails with the error of
    the constructor; when [fetch] rejects, the one request was sent and
    the stream fails with the error of [fetch], before any fragment. *)
Theorem streamFim_sends_at_most_once this prefix suffix :
  (List.length (Mistral.streamFim this prefix suffix).2 <= 1)%nat
  /\ (forall e,
        Mistral.URL_new (lit "v1/fim/completions") (Mistral.baseUrl this) = Throw e ->
        Mistral.streamFim this prefix suffix = (Fail e, []))
  /\ (forall endpoint e,
        Mistral.URL_new (lit "v1/fim/completions") (Mistral.baseUrl this)
          = Return endpoint ->
        Mistral.fetch (Mistral.fimRequest this endpoint prefix suffix) = Throw e ->
        Mistral.streamFim this prefix suffix
        = (Fail e, [Mistral.fimRequest this endpoint prefix suffix])).
Proof.
  unfold Mistral.streamFim. split; [|split].
  - destruct (Mistral.URL_new _ _) as [endpoint|e]; simpl; [|lia].
    destruct (Mistral.fetch _) as [response|e]; simpl; [|lia].
    destruct (negb (Mistral.ok response)); simpl; lia.
  - by intros e ->.
  - by intros endpoint e -> ->.
Qed.

Lemma forwardContent_nonempty (events : gen Mistral.SseData) :
  Forall (fun fragment => fragment <> []) (yields (Mistral.forwardContent events)).
Proof.
  rewrite forwardContent_yields. induction (yields events) as [|data rest IH]; simpl.
  - constructor.
  - unfold fragmentOf at 1.
    destruct (Mistral.choices data) as [[|choice cs]|]; [done| |done].
    destruct (Mistral.delta choice) as [d|]; [|done].
    destruct (Mistral.content d) as [[|c content]|]; [done| |done].
    by constructor.
Qed.

Lemma streamFim_nonempty this prefix suffix :
  Forall (fun fragment => fragment <> [])
         (yields (Mistral.streamFim this prefix suffix).1).
Proof.
  unfold Mistral.streamFim.
  destruct (Mistral.URL_new _ _) as [endpoint|e]; simpl; [|constructor].
  destruct (Mistral.fetch _) as [response|e]; simpl; [|constructor].
  destruct (negb (Mistral.ok response)); simpl; [constructor|].
  apply forwardContent_nonempty.
Qed.

(** X15: streamFim never yields an empty fragment; so completeFim
    returns the empty string only when the stream yielded nothing. *)
Theorem fim_fragments_are_never_empty this prefix suffix :
  Forall (fun fragment => fragment <> [])
         (yields (Mistral.streamFim this prefix suffix).1)
  /\ ((Mistral.completeFim this prefix suffix).1 = Return []
      <-> yields (Mistral.streamFim this prefix suffix).1 = []
          /\ ending (Mistral.streamFim this prefix suffix).1 = Return tt).
Proof.
  split; [apply streamFim_nonempty|].
  pose proof (streamFim_nonempty this prefix suffix) as Hne.
  unfold Mistral.completeFim.
  destruct (Mistral.streamFim this prefix suffix) as [chunks sent]. simpl in *.
  rewrite accumulate_fold. destruct (ending chunks) as [[]|e]; simpl.
  - split.
    + intros [= Hjoin]. split; [|done].
      destruct (yields chunks) as [|fragment rest]; [done|].
      inversion Hne as [|? ? Hfragment _]; subst. simpl in Hjoin.
      by destruct fragment.
    + by intros [-> _].
  - split; [done|]. by intros [_ ?].
Qed.

End MistralMore.

(** ** The chat completion of the Mistral handler *)

Section MistralChatMore.
Context {env : Mistral.Env} {client : MistralChat.Client}.
Implicit Types (this : Mistral.MistralHandler)
  (response : gen MistralChat.Event) (event : MistralChat.Event).

Lemma yieldAll_yields {A} (xs : list A) (rest : gen A) :
  yields (MistralChat.yieldAll xs rest) = xs ++ yields rest.
Proof. induction xs as [|x xs IH]; simpl; [done|]. by rewrite IH. Qed.

Lemma yieldAll_ending {A} (xs : list A) (rest : gen A) :
  ending (MistralChat.yieldAll xs rest) = ending rest.
Proof. by induction xs as [|x xs IH]. Qed.

Lemma forwardEvents_yields response :
  yields (MistralChat.forwardEvents response)
  = yields response ≫= MistralChat.eventYields.
Proof.
  induction response as [event rest IH| |e]; simpl; [|done..].
  by rewrite yieldAll_yields, IH.
Qed.

Lemma forwardEvents_ending response :
  ending (MistralChat.forwardEvents response) = ending response.
Proof.
  induction response as [event rest IH| |e]; simpl; [|done..].
  by rewrite yieldAll_ending.
Qed.

Lemma textOf_app (xs ys : list MistralChat.ApiStreamChunk) :
  textOf (xs ++ ys) = textOf xs ++ textOf ys.
Proof.
  unfold textOf. by rewrite omap_app, join_app.
Qed.

Lemma thinkingYields_no_text (parts : list MistralChat.ThinkingPart) :
  textOf (MistralChat.thinkingYields parts) = []
  /\ usageOf (MistralChat.thinkingYields parts) = []
  /\ Forall (fun c => ~ emptyChunk c) (MistralChat.thinkingYields parts).
Proof.
  unfold textOf, usageOf, MistralChat.thinkingYields.
  induction parts as [|part parts [IH1 [IH2 IH3]]]; simpl; [by repeat constructor|].
  destruct (MistralChat.part_text part) as [[|c text]|]; simpl; [done| |done].
  case_bool_decide; simpl; [|done]. split; [done|]. split; [done|].
  constructor; [|done]. by intros [?|?].
Qed.

(** What one chunk of an array content contributes. *)
Lemma chunkYields_text (chunk : MistralChat.ContentChunk) :
  textOf (MistralChat.chunkYields chunk)
    = (if bool_decide (MistralChat.chunk_type chunk = lit "text")
          && from_option truthy false (MistralChat.chunk_text chunk)
       then or_else (default [] (MistralChat.chunk_text chunk)) []
       else [])
  /\ usageOf (MistralChat.chunkYields chunk) = []
  /\ Forall (fun c => ~ emptyChunk c) (MistralChat.chunkYields chunk).
Proof.
  unfold MistralChat.chunkYields.
  destruct (bool_decide (MistralChat.chunk_type chunk = lit "thinking")) eqn:Hthinking.
  - apply bool_decide_eq_true in Hthinking.
    assert (bool_decide (MistralChat.chunk_type chunk = lit "text") = false) as Htext.
    { apply bool_decide_eq_false. rewrite Hthinking. intros Heq.
      vm_compute in Heq. discriminate Heq. }
    rewrite Htext. simpl.
    destruct (MistralChat.chunk_thinking chunk) as [thinking|].
    + apply thinkingYields_no_text.
    + destruct (MistralChat.chunk_text chunk) as [[|c text]|]; by repeat constructor.
  - destruct (MistralChat.chunk_text chunk) as [[|c text]|]; simpl;
      rewrite ?andb_false_r; try by repeat constructor.
    destruct (bool_decide (MistralChat.chunk_type chunk = lit "text")); simpl;
      unfold textOf, usageOf; simpl; rewrite ?app_nil_r;
      (split; [done|]); (split; [done|]); repeat constructor.
    by intros [?|?].
Qed.

Lemma chunksYield_text (chunks : list MistralChat.ContentChunk) :
  textOf (chunks ≫= MistralChat.chunkYields)
    = MistralChat.contentText (Some (MistralChat.ContentArray chunks))
  /\ usageOf (chunks ≫= MistralChat.chunkYields) = []
  /\ Forall (fun c => ~ emptyChunk c) (chunks ≫= MistralChat.chunkYields).
Proof.
  induction chunks as [|chunk chunks [IH1 [IH2 IH3]]]; [by repeat constructor|].
  destruct (chunkYields_text chunk) as [H1 [H2 H3]].
  change ((chunk :: chunks) ≫= MistralChat.chunkYields)
    with (MistralChat.chunkYields chunk ++ (chunks ≫= MistralChat.chunkYields)).
  split; [|split].
  - rewrite textOf_app, H1, IH1. simpl.
    by destruct (bool_decide _ && from_option truthy false _).
  - unfold usageOf in *. by rewrite omap_app, H2, IH2.
  - by apply Forall_app.
Qed.

(** What one event contributes: the text of its content, its usage, and
    no chunk without text. *)
Lemma eventYields_spec event :
  textOf (MistralChat.eventYields event)
    = MistralChat.contentText (eventContent event)
  /\ usageOf (MistralChat.eventYields event)
     = match MistralChat.usage event with
       | Some u => [(default 0 (MistralChat.promptTokens u),
                     default 0 (MistralChat.completionTokens u))]
       | None => []
       end
  /\ Forall (fun c => ~ emptyChunk c) (MistralChat.eventYields event).
Proof.
  unfold MistralChat.eventYields. fold (eventContent event).
  assert (forall xs : list MistralChat.ApiStreamChunk,
    let tail := match MistralChat.usage event with
                | Some u => [MistralChat.UsageChunk
                               (MistralChat.or_zero (MistralChat.promptTokens u))
                               (MistralChat.or_zero (MistralChat.completionTokens u))]
                | None => []
                end in
    textOf (xs ++ tail) = textOf xs
    /\ (usageOf xs = [] ->
        usageOf (xs ++ tail)
        = match MistralChat.usage event with
          | Some u => [(default 0 (MistralChat.promptTokens u),
                        default 0 (MistralChat.completionTokens u))]
          | None => []
          end)
    /\ (Forall (fun c => ~ emptyChunk c) xs ->
        Forall (fun c => ~ emptyChunk c) (xs ++ tail))) as Htail.
  { intros xs tail. subst tail. split; [|split].
    - rewrite textOf_app. destruct (MistralChat.usage event); simpl;
        by rewrite app_nil_r.
    - intros Hxs. unfold usageOf in *. rewrite omap_app, Hxs.
      by destruct (MistralChat.usage event).
    - intros Hxs. apply Forall_app. split; [done|].
      destruct (MistralChat.usage event); repeat constructor. by intros [?|?]. }
  destruct (eventContent event) as [[[|c text]|chunks]|].
  - destruct (Htail []) as [H1 [H2 H3]]. split; [by rewrite H1|].
    split; [by apply H2|]. apply H3. constructor.
  - destruct (Htail [MistralChat.TextChunk (c :: text)]) as [H1 [H2 H3]].
    split; [rewrite H1; unfold textOf; simpl; by rewrite app_nil_r|].
    split; [by apply H2|]. apply H3. constructor; [|done]. by intros [?|?].
  - destruct (Htail (chunks ≫= MistralChat.chunkYields)) as [H1 [H2 H3]].
    destruct (chunksYield_text chunks) as [H4 [H5 H6]].
    split; [by rewrite H1|]. split; [by apply H2|]. by apply H3.
  - destruct (Htail []) as [H1 [H2 H3]]. split; [by rewrite H1|].
    split; [by apply H2|]. apply H3. constructor.
Qed.

(** X16: createMessage never yields a text chunk or a reasoning chunk
    without text. *)
Theorem createMessage_chunks_have_text this (systemPrompt : jsstring)
    (msgs : list MistralChat.AnthropicMessage) :
  Forall (fun c => ~ emptyChunk c)
         (yields (MistralChat.createMessage this systemPrompt msgs).1).
Proof.
  unfold MistralChat.createMessage.
  destruct (MistralChat.chat_stream _) as [response|e]; simpl; [|constructor].
  rewrite forwardEvents_yields.
  induction (yields response) as [|event rest IH]; [constructor|].
  change ((event :: rest) ≫= MistralChat.eventYields)
    with (MistralChat.eventYields event ++ (rest ≫= MistralChat.eventYields)).
  apply Forall_app. split; [|done]. by destruct (eventYields_spec event) as [_ [_ ?]].
Qed.

(** X17: the text chunks that createMessage yields for a response add up,
    event by event and in order, to what completePrompt makes of the same
    contents: strings as they are, of arrays the text of the chunks of
    type "text", and nothing of thinking chunks. *)
Theorem createMessage_text_is_contentText_of_events this (systemPrompt : jsstring)
    (msgs : list MistralChat.AnthropicMessage) response :
  MistralChat.chat_stream (MistralChat.streamRequest this systemPrompt msgs)
    = Return response ->
  textOf (yields (MistralChat.createMessage this systemPrompt msgs).1)
  = mjoin ((fun event => MistralChat.contentText (eventContent event))
           <$> yields response).
Proof.
  intros Hstream. unfold MistralChat.createMessage. rewrite Hstream. simpl.
  rewrite forwardEvents_yields.
  induction (yields response) as [|event rest IH]; [done|].
  change ((event :: rest) ≫= MistralChat.eventYields)
    with (MistralChat.eventYields event ++ (rest ≫= MistralChat.eventYields)).
  rewrite textOf_app, IH. simpl. by destruct (eventYields_spec event) as [-> _].
Qed.

(** X18: createMessage yields one usage chunk for each event that has a
    usage, in order, with a missing count as 0. *)
Theorem createMessage_usage_per_event this (systemPrompt : jsstring)
    (msgs : list MistralChat.AnthropicMessage) response :
  MistralChat.chat_stream (MistralChat.streamRequest this systemPrompt msgs)
    = Return response ->
  usageOf (yields (MistralChat.createMessage this systemPrompt msgs).1)
  = omap (fun event =>
            (fun u => (default 0 (MistralChat.promptTokens u),
                       default 0 (MistralChat.completionTokens u)))
            <$> MistralChat.usage event)
         (yields response).
Proof.
  intros Hstream. unfold MistralChat.createMessage. rewrite Hstream. simpl.
  rewrite forwardEvents_yields.
  induction (yields response) as [|event rest IH]; [done|].
  change ((event :: rest) ≫= MistralChat.eventYields)
    with (MistralChat.eventYields event ++ (rest ≫= MistralChat.eventYields)).
  unfold usageOf in *. rewrite omap_app, IH.
  destruct (eventYields_spec event) as [_ [Husage _]]. unfold usageOf in Husage.
  rewrite Husage. simpl. by destruct (MistralChat.usage event).
Qed.

(** X19: createMessage calls the client once, with the model id, the
    system prompt first, the maximum of getModel (none unless
    includeMaxTokens is on) and the temperature of getModel; it fails
    without a chunk when the call is rejected, and otherwise ends as the
    response ends, with the same error and no wrapping. *)
Theorem createMessage_request_and_failure this (systemPrompt : jsstring)
    (msgs : list MistralChat.AnthropicMessage) :
  (MistralChat.createMessage this systemPrompt msgs).2
    = [ {| MistralChat.model := Mistral.id (Mistral.getModel this);
           MistralChat.messages :=
             MistralChat.messageOf (lit "system") systemPrompt
             :: MistralChat.convertToMistralMessages msgs;
           MistralChat.maxTokens :=
             if default false (Mistral.includeMaxTokens (Mistral.options this))
             then Mistral.maxTokens (Mistral.info (Mistral.getModel this))
             else None;
           MistralChat.temperature :=
             default Mistral.MISTRAL_DEFAULT_TEMPERATURE
               (Mistral.modelTemperature (Mistral.options this)) |} ]
  /\ match MistralChat.chat_stream (MistralChat.streamRequest this systemPrompt msgs) with
     | Throw e => (MistralChat.createMessage this systemPrompt msgs).1 = Fail e
     | Return response =>
         ending (MistralChat.createMessage this systemPrompt msgs).1 = ending response
     end.
Proof.
  unfold MistralChat.createMessage.
  destruct (MistralChat.chat_stream _) as [response|e]; simpl;
    (split; [done|]); [apply forwardEvents_ending|done].
Qed.

(** X20: completePrompt calls the client once, without a maximum.  An
    Error the client rejects with is thrown again as a new Error whose
    message is "Mistral completion error: " and the old message; a thrown
    value that is no Error is thrown as it is; a response without choices
    or without content resolves to the empty string. *)
Theorem completePrompt_wraps_errors this (prompt : jsstring) :
  let request :=
    {| MistralChat.model := Mistral.id (Mistral.getModel this);
       MistralChat.messages := [MistralChat.messageOf (lit "user") prompt];
       MistralChat.maxTokens := None;
       MistralChat.temperature :=
         default Mistral.MISTRAL_DEFAULT_TEMPERATURE
           (Mistral.modelTemperature (Mistral.options this)) |} in
  (MistralChat.completePrompt this prompt).2 = [request]
  /\ match MistralChat.chat_complete request with
     | MistralChat.Rejected (MistralChat.ThrownError e) =>
         (MistralChat.completePrompt this prompt).1
         = MistralChat.Rejected (MistralChat.ThrownError
             (Error (lit "Mistral completion error: " ++ message e)))
     | MistralChat.Rejected (MistralChat.ThrownOther v) =>
         (MistralChat.completePrompt this prompt).1
         = MistralChat.Rejected (MistralChat.ThrownOther v)
     | MistralChat.Resolved response =>
         exists text,
           (MistralChat.completePrompt this prompt).1 = MistralChat.Resolved text
           /\ (MistralChat.completion_choices response = None
               \/ MistralChat.completion_choices response = Some []
               \/ (exists rest, MistralChat.completion_choices response
                     = Some ({| MistralChat.message_content := None |} :: rest))
               -> text = [])
     end.
Proof.
  intros request. unfold MistralChat.completePrompt.
  change (MistralChat.chat_complete _) with (MistralChat.chat_complete request).
  destruct (MistralChat.chat_complete request) as [response|[e|v]]; simpl;
    (split; [done|]); [|done..].
  eexists. split; [reflexivity|].
  by intros [->|[->|[rest ->]]].
Qed.

End MistralChatMore.

(** ** The conversion utilities *)

Section ConversionMore.

Lemma substring_cut (s : jsstring) (n : Z) :
  substring s 0 (Some n) ++ substring s n None = s
  /\ length (substring s 0 (Some n)) = clamp (length s) n.
Proof.
  pose proof (length_nonneg s) as Hlen.
  destruct (Z.lt_ge_cases n 0) as [Hneg|Hpos].
  - unfold substring.
    assert (clamp (length s) 0 = 0) as -> by (unfold clamp; lia).
    assert (clamp (length s) n = 0) as -> by (unfold clamp; lia).
    replace (Z.max 0 (length s) - Z.min 0 (length s)) with (length s) by lia.
    replace (Z.min 0 (length s)) with 0 by lia. simpl.
    split; [|done]. rewrite drop_0. apply take_ge. unfold length in *. lia.
  - rewrite substring_to by done.
    destruct (Z.le_gt_cases n (length s)) as [Hin|Hout].
    + rewrite substring_from by done. split; [apply take_drop|].
      unfold clamp, length in *. rewrite length_take. lia.
    + unfold substring.
      assert (clamp (length s) n = length s) as -> by (unfold clamp; lia).
      rewrite Z.max_id, Z.min_id, Z.sub_diag. simpl.
      rewrite take_ge by (unfold length in *; lia).
      split; [apply app_nil_r|]. unfold clamp. lia.
Qed.

(** X21: extractPrefixSuffix cuts the text of the document in two: the
    prefix followed by the suffix is the whole text, for every offset the
    document reports; the prefix has that offset as length, 0 for a
    negative offset and the length of the text for one beyond the end. *)
Theorem extractPrefixSuffix_cuts_text (document : GhostTypes.TextDocument)
    (position : GhostTypes.Position) :
  GhostTypes.prefix (GhostTypes.extractPrefixSuffix document position)
    ++ GhostTypes.suffix (GhostTypes.extractPrefixSuffix document position)
  = GhostTypes.getText document
  /\ length (GhostTypes.prefix (GhostTypes.extractPrefixSuffix document position))
     = Z.min (Z.max (GhostTypes.offsetAt document position) 0)
             (length (GhostTypes.getText document)).
Proof. apply substring_cut. Qed.

(** X22: the input made from a context has, as its prefix, the text of
    the document up to the start of the range, or up to the position of
    offset 0 when there is no range; it never passes file contents, and
    missing range lists become empty lists. *)
Theorem contextToAutocompleteInput_prefix {Snippet Edited : Type} (uuid : jsstring)
    (context : @GhostTypes.GhostSuggestionContext Snippet Edited) :
  let input := GhostTypes.contextToAutocompleteInput uuid context in
  let position :=
    match GhostTypes.range context with
    | Some r => GhostTypes.range_start r
    | None => GhostTypes.positionAt (GhostTypes.document context) 0
    end in
  (exists p rest,
     GhostTypes.manuallyPassPrefix input = Some p
     /\ GhostTypes.getText (GhostTypes.document context) = p ++ rest
     /\ length p = clamp (length (GhostTypes.getText (GhostTypes.document context)))
                         (GhostTypes.offsetAt (GhostTypes.document context) position))
  /\ GhostTypes.pos input = position
  /\ GhostTypes.manuallyPassFileContents input = None
  /\ (GhostTypes.recentlyVisitedRanges context = None ->
      GhostTypes.input_recentlyVisitedRanges input = [])
  /\ (GhostTypes.recentlyEditedRanges context = None ->
      GhostTypes.input_recentlyEditedRanges input = []).
Proof.
  intros input position. subst input. unfold GhostTypes.contextToAutocompleteInput.
  fold position. simpl. split; [|split; [by destruct position|split; [done|]]].
  - destruct (substring_cut (GhostTypes.getText (GhostTypes.document context))
                (GhostTypes.offsetAt (GhostTypes.document context) position))
      as [Hcut Hlen].
    eexists _, _. split; [done|]. by split; [symmetry; apply Hcut|].
  - by split; intros ->.
Qed.

End ConversionMore.

(** ** The further properties at concrete inputs *)

(** X2, witness. *)
Lemma nonempty_suggestion_witness :
  cleanSuggestion unicodeP (lit "  # Title line ") [] = lit "# Title line"
  /\ 2 <= length (cleanSuggestion unicodeP (lit "  # Title line ") []) <= 100
  /\ startsWith (cleanSuggestion unicodeP (lit "  # Title line ") []) (lit "//") = false.
Proof.
  split; [reflexivity|].
  assert (cleanSuggestion unicodeP (lit "  # Title line ") [] <> []) as Hne
    by (vm_compute; discriminate).
  destruct (nonempty_suggestion_is_short_line_without_comment unicodeP
              (lit "  # Title line ") [] Hne) as [Hlen [_ [_ [Hcomment _]]]].
  split; [exact Hlen|exact Hcomment].
Defined.

(** X3, witness. *)
Lemma cleanSuggestion_ignores_surrounding_space_witness :
  cleanSuggestion unicodeP ([LF; SPACE] ++ lit "hello world" ++ [SPACE; LF; LF])
    (lit "hello")
  = cleanSuggestion unicodeP (lit "hello world") (lit "hello").
Proof.
  exact (cleanSuggestion_ignores_surrounding_space unicodeP [LF; SPACE]
           (lit "hello world") [SPACE; LF; LF] (lit "hello") eq_refl eq_refl).
Defined.

(** X6, witness: the echo "hello" is removed and the second line dropped. *)
Lemma available_model_is_asked_once_witness :
  Chat.isFimAvailable ExModel.ready = true
  /\ Chat.getCompletion unicodeP (Return []) (lit "hello") None ExModel.ready
     = (Return {| Chat.suggestion := lit "world" |}, ExModel.ready,
        [Chat.CallReadClipboard;
         Chat.CallGenerateFim (contextBlob (Return []) (lit "hello") None) []]).
Proof.
  split; [reflexivity|].
  exact (available_model_is_asked_once unicodeP (Return []) (lit "hello") None
           ExModel.ready ExModel.echoing ExModel.ready [] eq_refl eq_refl).
Defined.

(** X7, witness. *)
Lemma reloaded_model_is_asked_once_witness :
  Chat.getCompletion unicodeP (Return []) (lit "hello") None
    (ExModel.unloaded (Return true))
  = (Return {| Chat.suggestion := lit "world" |}, ExModel.ready,
     [Chat.CallReload; Chat.CallReadClipboard;
      Chat.CallGenerateFim (contextBlob (Return []) (lit "hello") None) []]).
Proof.
  exact (reloaded_model_is_asked_once unicodeP (Return []) (lit "hello") None
           (ExModel.unloaded (Return true)) ExModel.ready ExModel.echoing
           ExModel.ready [] eq_refl eq_refl eq_refl eq_refl).
Defined.

(** X8, witness. *)
Lemma reload_rejection_propagates_witness :
  (Chat.getCompletion unicodeP (Return []) (lit "hello") None
     (ExModel.unloaded (Throw Ex.networkDown))).1.1
  = Throw Ex.networkDown.
Proof.
  by rewrite (reload_rejection_propagates (H := ExModel.Scripted_model) unicodeP
                (Return []) (lit "hello") None
                (ExModel.unloaded (Throw Ex.networkDown)) _ Ex.networkDown
                eq_refl eq_refl).
Defined.

(** X9, witness. *)
Lemma returned_suggestion_witness :
  Chat.suggestion {| Chat.suggestion := lit "world" |} = []
  \/ (2 <= length (lit "world") <= 100
      /\ (LF ∉ lit "world")
      /\ headIsSpace (lit "world") = false
      /\ startsWith (lit "world") (lit "//") = false
      /\ startsWith (lit "world") (lit "/*") = false
      /\ startsWith (lit "world") (lit "*") = false
      /\ (startsWith (lit "world") (lit "#") = true ->
          startsWith (lit "world") (lit "# ") = true)).
Proof.
  exact (returned_suggestion_is_empty_or_short_line unicodeP (Return [])
           (lit "hello") None ExModel.ready {| Chat.suggestion := lit "world" |}
           ExModel.ready _ eq_refl).
Defined.


(** X12, witness. *)
Lemma fim_request_headers_witness :
  let env := Ex.env (Return Ex.answer200) Ex.events in
  let request := Mistral.fimRequest Ex.codestral Ex.endpoint (lit "a") (lit "b") in
  Mistral.headers request !! lit "Authorization" = Some (lit "Bearer key")
  /\ Mistral.headers request !! lit "X-Other" = None.
Proof.
  intros env request.
  assert (request ∈ (Mistral.streamFim Ex.codestral (lit "a") (lit "b")).2) as Hin
    by apply list_elem_of_here.
  destruct (fim_request_headers (env := env) Ex.codestral (lit "a") (lit "b")
              (lit "key") request eq_refl Hin) as [Hauth [_ [_ Hother]]].
  split; [exact Hauth|]. rewrite Hother; [reflexivity|..];
    intros Heq; vm_compute in Heq; discriminate Heq.
Defined.

(** X13, witness: a chat-only model would be sent to api.mistral.ai. *)
Lemma fim_request_target_witness :
  let env := Ex.env (Return Ex.answer200) Ex.events in
  let request :=
    Mistral.fimRequest Ex.chatOnly (lit "https://api.mistral.ai/v1/fim/completions")
      (lit "a") (lit "b") in
  request ∈ (Mistral.streamFim Ex.chatOnly (lit "a") (lit "b")).2
  /\ Mistral.prompt (Mistral.body request) = lit "a"
  /\ Mistral.URL_new (lit "v1/fim/completions") (lit "https://api.mistral.ai")
     = Return (Mistral.endpoint request).
Proof.
  intros env request.
  assert (request ∈ (Mistral.streamFim Ex.chatOnly (lit "a") (lit "b")).2) as Hin
    by apply list_elem_of_here.
  destruct (fim_request_target_and_body (env := env) Ex.chatOnly (lit "a") (lit "b")
              request Hin) as [_ [_ [Hprompt [_ [_ Hurl]]]]].
  split; [exact Hin|]. split; [exact Hprompt|exact Hurl].
Defined.

(** X17 and X18, witnesses: "Hel", then thinking and "lo", then a usage. *)
Lemma createMessage_text_witness :
  let env := Ex.env (Return Ex.answer200) Ex.events in
  let client :=
    ExChat.client (Return ExChat.events) (MistralChat.Resolved
      {| MistralChat.completion_choices := None |}) in
  textOf (yields (MistralChat.createMessage Ex.codestral (lit "be brief") []).1)
  = lit "Hello".
Proof.
  intros env client.
  by rewrite (createMessage_text_is_contentText_of_events (env := env)
                (client := client) Ex.codestral (lit "be brief") []
                ExChat.events eq_refl).
Defined.

Lemma createMessage_usage_witness :
  let env := Ex.env (Return Ex.answer200) Ex.events in
  let client :=
    ExChat.client (Return ExChat.events) (MistralChat.Resolved
      {| MistralChat.completion_choices := None |}) in
  usageOf (yields (MistralChat.createMessage Ex.codestral (lit "be brief") []).1)
  = [(7, 0)].
Proof.
  intros env client.
  by rewrite (createMessage_usage_per_event (env := env) (client := client)
                Ex.codestral (lit "be brief") [] ExChat.events eq_refl).
Defined.

(** ** Runs of the chat completion and of the conversion *)

(** The whole stream of createMessage on the example events. *)
Example createMessage_run :
  let env := Ex.env (Return Ex.answer200) Ex.events in
  let client :=
    ExChat.client (Return ExChat.events) (MistralChat.Resolved
      {| MistralChat.completion_choices := None |}) in
  yields (MistralChat.createMessage Ex.codestral (lit "be brief") []).1
  = [MistralChat.TextChunk (lit "Hel"); MistralChat.ReasoningChunk (lit "hm");
     MistralChat.TextChunk (lit "lo"); MistralChat.UsageChunk 7 0].
Proof. reflexivity. Qed.

(** completePrompt keeps the text chunks of an array content only. *)
Example completePrompt_run :
  let env := Ex.env (Return Ex.answer200) Ex.events in
  let client :=
    ExChat.client (Return Done) (MistralChat.Resolved
      {| MistralChat.completion_choices :=
           Some [{| MistralChat.message_content :=
                      Some (MistralChat.ContentArray
                              [ExChat.thinkingChunk "hm"; ExChat.textChunk "lo"]) |}] |}) in
  (MistralChat.completePrompt Ex.codestral (lit "hi")).1
  = MistralChat.Resolved (lit "lo").
Proof. reflexivity. Qed.

(** An offset beyond the end gives the whole text as prefix. *)
Example extractPrefixSuffix_beyond_end :
  GhostTypes.extractPrefixSuffix (ExChat.document "abc" 7)
    {| GhostTypes.line := 0; GhostTypes.character := 7 |}
  = {| GhostTypes.prefix := lit "abc"; GhostTypes.suffix := [] |}.
Proof. reflexivity. Qed.
